(** * avrlib rotary encoder driver: a shallow embedding

    The embedded code is avrlib/devices/rotary_encoder.h: the class
    [RotaryEncoder<A, B, Click, debounce_time>] (quadrature decoder with a
    millisecond rate limiter) and the class [RotaryEncoderTracker<Encoder>]
    (a latch over the decoder).  All the C++ state is static; it is threaded
    here explicitly through records.  The initialisations of avrlib/spi.h
    follow, as the hardware operations they perform. *)

From Stdlib Require Import ZArith Lia Bool List.
Import ListNotations.
Local Open Scope Z_scope.

(** ** Fixed-width integers

    Values of the C integer types are integers of [Z]; a conversion to a
    fixed-width type is written out where the source performs one. *)

(** Conversion to [uint8_t]. *)
Definition uint8_t (x : Z) : Z := x mod 256.

(** Conversion to [uint32_t]. *)
Definition uint32_t (x : Z) : Z := x mod 4294967296.

(** ** The debounced switch (avrlib/devices/debounce.h) *)

Module DebouncedSwitch.

(** Modelled from the spec: the header debounce.h ([DebouncedSwitch<Input>])
    is not among the sources, so the switch is an interface over an abstract
    state [S], which stands for the static state of one switch together with
    the pin it samples.  [Read] samples the pin, advances the shift history
    and returns it; [raised] reads the one-shot transition flag (the read may
    clear the flag, so it returns a state as well); [immediate_value] is the
    raw level of the pin; [state] is the shift history.  Reading the flag
    does not advance the history: only [Read] samples. *)
Class t (S : Type) : Type := {
  Init : S -> S;
  Read : S -> S * Z;
  raised : S -> S * bool;
  immediate_value : S -> Z;
  state : S -> Z;
  raised_state : forall s, state (fst (raised s)) = state s
}.

End DebouncedSwitch.

(** ** RotaryEncoder<A, B, Click, debounce_time> *)

Module RotaryEncoder.

Section Encoder.

Context {SA SB SC : Type}.
Context {SwitchA : DebouncedSwitch.t SA}.
Context {SwitchB : DebouncedSwitch.t SB}.
Context {SwitchClick : DebouncedSwitch.t SC}.

(** The template parameter [uint16_t debounce_time]. *)
Variable debounce_time : Z.

(** The static state: the three switches and [uint32_t next_readout_]. *)
Record t : Type := mk {
  switch_a : SA;
  switch_b : SB;
  switch_click : SC;
  next_readout_ : Z
}.

Definition set_next_readout_ (n : Z) (e : t) : t :=
  mk (switch_a e) (switch_b e) (switch_click e) n.

Definition Init (e : t) : t :=
  mk (DebouncedSwitch.Init (switch_a e))
     (DebouncedSwitch.Init (switch_b e))
     (DebouncedSwitch.Init (switch_click e))
     0.

(** The increment [Read] computes from the two histories [a] and [b] it has
    just read (the [if]/[else] of its body). *)
Definition decode (a b : Z) : Z :=
  if (a =? 0x80) && (Z.land b 0xf0 =? 0x00) then 1
  else if (b =? 0x80) && (Z.land a 0xf0 =? 0x00) then -1
  else 0.

Definition Read (e : t) : t * Z :=
  let '(sa, ra) := DebouncedSwitch.Read (switch_a e) in
  let a := uint8_t ra in
  let '(sb, rb) := DebouncedSwitch.Read (switch_b e) in
  let b := uint8_t rb in
  let increment := decode a b in
  let '(sc, _) := DebouncedSwitch.Read (switch_click e) in
  (mk sa sb sc (next_readout_ e), increment).

(** [milliseconds] is the value the clock function [milliseconds()] of
    avrlib/time.h returns at the call. *)
Definition TimedRead (milliseconds : Z) (e : t) : t * Z :=
  let t := uint32_t milliseconds in
  if t >=? next_readout_ e
  then Read (set_next_readout_ (uint32_t (t + debounce_time)) e)
  else (e, 0).

Definition clicked (e : t) : t * Z :=
  let '(sc, r) := DebouncedSwitch.raised (switch_click e) in
  (mk (switch_a e) (switch_b e) sc (next_readout_ e),
   uint8_t (if r then 1 else 0)).

Definition immediate_value (e : t) : Z :=
  uint8_t (DebouncedSwitch.immediate_value (switch_click e)).

(** The rate limiter as the specification words it: a decode is due when
    the deadline is not after [now] on the wrapping 32-bit clock, that is
    when [now - deadline], read as a signed 32-bit integer, is not negative. *)
Definition wrap_safe_due (now deadline : Z) : bool :=
  uint32_t (now - deadline) <? 2147483648.

Definition timed_decode_wrap_safe (now : Z) (e : t) : t * Z :=
  let t := uint32_t now in
  if wrap_safe_due t (next_readout_ e)
  then Read (set_next_readout_ (uint32_t (t + debounce_time)) e)
  else (e, 0).

End Encoder.

Arguments t : clear implicits.

End RotaryEncoder.

(** ** RotaryEncoderTracker<Encoder>

    The tracker is taken at [Encoder = RotaryEncoder<A, B, Click,
    debounce_time>]; it calls no operation of the encoder that depends on
    [debounce_time]. *)

Module RotaryEncoderTracker.

Section Tracker.

Context {SA SB SC : Type}.
Context {SwitchA : DebouncedSwitch.t SA}.
Context {SwitchB : DebouncedSwitch.t SB}.
Context {SwitchClick : DebouncedSwitch.t SC}.

(** The static state of the encoder, [int8_t increment_] and
    [uint8_t clicked_]. *)
Record t : Type := mk {
  encoder : RotaryEncoder.t SA SB SC;
  increment_ : Z;
  clicked_ : Z
}.

Definition Init (k : t) : t :=
  mk (RotaryEncoder.Init (encoder k)) (increment_ k) (clicked_ k).

(** First statement of [Read]: [if (!increment_) increment_ = Encoder::Read();] *)
Definition Read_increment (k : t) : t :=
  if increment_ k =? 0
  then let '(e, r) := RotaryEncoder.Read (encoder k) in mk e r (clicked_ k)
  else k.

(** Second statement of [Read]: [if (!clicked_) clicked_ = Encoder::clicked();] *)
Definition Read_clicked (k : t) : t :=
  if clicked_ k =? 0
  then let '(e, r) := RotaryEncoder.clicked (encoder k) in mk e (increment_ k) r
  else k.

Definition Read (k : t) : t := Read_clicked (Read_increment k).

Definition clicked (k : t) : Z := clicked_ k.

(** The accessor is declared [uint8_t increment()] over the [int8_t] field:
    returning converts the field to [uint8_t]. *)
Definition increment (k : t) : Z := uint8_t (increment_ k).

Definition immediate_value (k : t) : Z :=
  uint8_t (RotaryEncoder.immediate_value (encoder k)).

Definition Flush (k : t) : t := mk (encoder k) 0 0.

Definition set_encoder (e : RotaryEncoder.t SA SB SC) (k : t) : t :=
  mk e (increment_ k) (clicked_ k).

(** What can happen to the latch between two calls of [Flush]: it is
    polled by [Read], and the decoder underneath it evolves on its own
    (the pins move, the decoder is read directly).  [Flush] is no step. *)
Inductive unflushed : t -> t -> Prop :=
| unflushed_refl : forall k, unflushed k k
| unflushed_Read : forall k k', unflushed k k' -> unflushed k (Read k')
| unflushed_encoder : forall k k' e,
    unflushed k k' -> unflushed k (set_encoder e k').

(** [n] successive calls of [Read]. *)
Fixpoint Read_times (n : nat) (k : t) : t :=
  match n with
  | O => k
  | S n' => Read (Read_times n' k)
  end.

End Tracker.

Arguments t : clear implicits.

End RotaryEncoderTracker.

(** ** A concrete debounced switch *)

Module SpecSwitch.

(** Modelled from the spec: debounce.h is not among the sources.  The
    history is the 8-bit shift register of the spec's data model (bit 7 the
    most recent sample, bit 0 the oldest, one write per sample, the oldest
    bit discarded); [flag] is the one-shot transition flag, cleared when it
    is read.  The spec does not say which history counts as a full
    transition; the flag is raised here on the clean edge [0x80].  [pin]
    lists the levels the pin shows at the coming samples (low once the list
    is exhausted). *)
Record t : Type := mk {
  history : Z;
  flag : bool;
  pin : list bool
}.

Definition level (s : t) : bool :=
  match pin s with
  | [] => false
  | l :: _ => l
  end.

Definition init (s : t) : t := mk 0 false (pin s).

Definition sample (s : t) : t :=
  let h := Z.lor (Z.shiftr (history s) 1) (if level s then 0x80 else 0) in
  mk h (flag s || (h =? 0x80)) (tl (pin s)).

Definition read_flag (s : t) : t * bool :=
  (mk (history s) false (pin s), flag s).

#[global] Instance switch : DebouncedSwitch.t t := {
  DebouncedSwitch.Init := init;
  DebouncedSwitch.Read := fun s => (sample s, history (sample s));
  DebouncedSwitch.raised := read_flag;
  DebouncedSwitch.immediate_value := fun s => if level s then 1 else 0;
  DebouncedSwitch.state := history;
  DebouncedSwitch.raised_state := fun s => eq_refl
}.

(** A switch with an all-low history whose pin shows the levels [l]. *)
Definition low (l : list bool) : t := mk 0 false l.

(** A switch whose flag is already raised. *)
Definition flagged : t := mk 0x80 true [].

End SpecSwitch.

(** ** Concrete decoder and latch states *)

Module Scenario.

Definition Encoder : Type :=
  RotaryEncoder.t SpecSwitch.t SpecSwitch.t SpecSwitch.t.

Definition Tracker : Type :=
  RotaryEncoderTracker.t SpecSwitch.t SpecSwitch.t SpecSwitch.t.

(** Both channels show a clean edge at the next sample. *)
Definition both_edges : Encoder :=
  RotaryEncoder.mk (SpecSwitch.low [true]) (SpecSwitch.low [true])
                   (SpecSwitch.low []) 0.

(** Channel A shows a clean edge at the next sample, B stays low. *)
Definition a_leads : Encoder :=
  RotaryEncoder.mk (SpecSwitch.low [true]) (SpecSwitch.low [])
                   (SpecSwitch.low []) 0.

(** Channel B shows a clean edge at the next sample, A stays low. *)
Definition b_leads : Encoder :=
  RotaryEncoder.mk (SpecSwitch.low []) (SpecSwitch.low [true])
                   (SpecSwitch.low []) 0.

(** Channel A shows a clean edge at the second sample. *)
Definition a_leads_later : Encoder :=
  RotaryEncoder.mk (SpecSwitch.low [false; true]) (SpecSwitch.low [])
                   (SpecSwitch.low []) 0.

(** Channel A and the button show a clean edge at the second sample. *)
Definition near_top : Encoder :=
  RotaryEncoder.mk (SpecSwitch.low [false; true]) (SpecSwitch.low [])
                   (SpecSwitch.low [false; true]) 0.

(** The state [near_top] is in after a read accepted at the time
    0xFFFFFFFE with a debounce time of 1: the deadline is the last value of
    the clock before it wraps. *)
Definition deadline_at_top : Encoder :=
  RotaryEncoder.mk (SpecSwitch.low [true]) (SpecSwitch.low [])
                   (SpecSwitch.low [true]) 0xFFFFFFFF.

(** The button is pressed while the channels are quiet. *)
Definition button_edge : Encoder :=
  RotaryEncoder.mk (SpecSwitch.low []) (SpecSwitch.low [])
                   (SpecSwitch.low [true]) 0.

(** An armed latch over a decoder. *)
Definition armed (e : Encoder) : Tracker := RotaryEncoderTracker.mk e 0 0.

(** A latch holding the step [+1] while channel B is about to show an edge
    and the button's flag is raised. *)
Definition latched_step : Tracker :=
  RotaryEncoderTracker.mk
    (RotaryEncoder.mk (SpecSwitch.low []) (SpecSwitch.low [true])
                      SpecSwitch.flagged 0)
    1 0.

(** A latch holding a click while channel A is about to show an edge. *)
Definition latched_click : Tracker :=
  RotaryEncoderTracker.mk a_leads 0 1.

End Scenario.

(** ** Sequences of calls *)

Module EncoderCalls.

Section Calls.

Context {SA SB SC : Type}.
Context {SwitchA : DebouncedSwitch.t SA}.
Context {SwitchB : DebouncedSwitch.t SB}.
Context {SwitchClick : DebouncedSwitch.t SC}.

Variable debounce_time : Z.

(** A call of one of the state-changing operations of [RotaryEncoder];
    [TimedRead] comes with the value the clock has at the call. *)
Inductive call : Type :=
| CallInit
| CallRead
| CallTimedRead (milliseconds : Z)
| CallClicked.

(** The state after a call, and the value the call returns ([Init] returns
    nothing, written 0). *)
Definition step (c : call) (e : RotaryEncoder.t SA SB SC)
  : RotaryEncoder.t SA SB SC * Z :=
  match c with
  | CallInit => (RotaryEncoder.Init e, 0)
  | CallRead => RotaryEncoder.Read e
  | CallTimedRead ms => RotaryEncoder.TimedRead debounce_time ms e
  | CallClicked => RotaryEncoder.clicked e
  end.

(** The state after a sequence of calls, and the values returned, in the
    order of the calls. *)
Fixpoint run (cs : list call) (e : RotaryEncoder.t SA SB SC)
  : RotaryEncoder.t SA SB SC * list Z :=
  match cs with
  | [] => (e, [])
  | c :: cs' =>
      let '(e1, r) := step c e in
      let '(e2, rs) := run cs' e1 in
      (e2, r :: rs)
  end.

End Calls.

End EncoderCalls.

Module TrackerCalls.

Section Calls.

Context {SA SB SC : Type}.
Context {SwitchA : DebouncedSwitch.t SA}.
Context {SwitchB : DebouncedSwitch.t SB}.
Context {SwitchClick : DebouncedSwitch.t SC}.

(** A call of one of the state-changing operations of
    [RotaryEncoderTracker], or a change of the decoder underneath it
    ([Decoder e]: the decoder is now in the state [e]). *)
Inductive call : Type :=
| CallInit
| CallRead
| CallFlush
| Decoder (e : RotaryEncoder.t SA SB SC).

Definition step (c : call) (k : RotaryEncoderTracker.t SA SB SC)
  : RotaryEncoderTracker.t SA SB SC :=
  match c with
  | CallInit => RotaryEncoderTracker.Init k
  | CallRead => RotaryEncoderTracker.Read k
  | CallFlush => RotaryEncoderTracker.Flush k
  | Decoder e => RotaryEncoderTracker.set_encoder e k
  end.

Definition run (cs : list call) (k : RotaryEncoderTracker.t SA SB SC)
  : RotaryEncoderTracker.t SA SB SC :=
  fold_left (fun k c => step c k) cs k.

Definition is_flush (c : call) : bool :=
  match c with
  | CallFlush => true
  | _ => false
  end.

(** The values the two fields of the latch take in use. *)
Definition fields_in_range (k : RotaryEncoderTracker.t SA SB SC) : Prop :=
  (RotaryEncoderTracker.increment_ k = 1 \/
   RotaryEncoderTracker.increment_ k = -1 \/
   RotaryEncoderTracker.increment_ k = 0) /\
  (RotaryEncoderTracker.clicked_ k = 1 \/
   RotaryEncoderTracker.clicked_ k = 0).

End Calls.

End TrackerCalls.

(** ** SPI (avrlib/spi.h)

    The functions of spi.h set pins and write registers through avr-libc
    and the headers avrlib.h and gpio.h, none of which is among the
    sources.  An initialisation is embedded as the sequence of the pin
    operations and register writes it performs, in order, with the values
    it computes; the bit numbers of the registers ([SPE], [MSTR], ...),
    which <avr/io.h> defines, are parameters. *)

Module Avr.

(** The enumeration [DataOrder] of avrlib.h, by the two names spi.h uses. *)
Inductive DataOrder : Type := MSB_FIRST | LSB_FIRST.

(** The pins spi.h names. *)
Inductive pin : Type :=
| SpiSCK | SpiMOSI | SpiMISO | SpiSS | SlaveSelect
| UartSpiXCK | UartSpiTX | UartSpiRX.

Inductive mode : Type := DIGITAL_INPUT | DIGITAL_OUTPUT.

(** What an initialisation does to the hardware. *)
Inductive event : Type :=
| set_mode (p : pin) (m : mode)
| High (p : pin)
| Low (p : pin)
| DoubleSpeed_set
| SPCR_write (v : Z)
| UBRR0_write (v : Z)
| UCSR0C_write (v : Z)
| UCSR0B_write (v : Z).

(** The macro [_BV(bit)] of avr-libc, [1 << (bit)]. *)
Definition _BV (bit : Z) : Z := Z.shiftl 1 bit.

End Avr.

Module SpiMaster.

Import Avr.

Section Bits.

(** Bit numbers of the register SPCR. *)
Variables SPE MSTR DORD SPR0 SPR1 : Z.

(** [configuration] before the [switch]. *)
Definition Init_order (order : DataOrder) : Z :=
  let configuration := uint8_t (Z.lor (_BV SPE) (_BV MSTR)) in
  match order with
  | LSB_FIRST => uint8_t (Z.lor configuration (_BV DORD))
  | MSB_FIRST => configuration
  end.

(** The [switch (speed)]: the cases 2, 8 and 32 call [DoubleSpeed::set()]
    and fall through into the next case; there is no default case. *)
Definition Init_speed (speed configuration : Z) : list event * Z :=
  if speed =? 2 then ([DoubleSpeed_set], configuration)
  else if speed =? 4 then ([], configuration)
  else if speed =? 8
       then ([DoubleSpeed_set], uint8_t (Z.lor configuration (_BV SPR0)))
  else if speed =? 16 then ([], uint8_t (Z.lor configuration (_BV SPR0)))
  else if speed =? 32
       then ([DoubleSpeed_set], uint8_t (Z.lor configuration (_BV SPR1)))
  else if speed =? 64 then ([], uint8_t (Z.lor configuration (_BV SPR1)))
  else if speed =? 128
       then ([], uint8_t (Z.lor (uint8_t (Z.lor configuration (_BV SPR0)))
                                (_BV SPR1)))
  else ([], configuration).

Definition Init (order : DataOrder) (speed : Z) : list event :=
  let '(double_speed, configuration) :=
    Init_speed speed (Init_order order) in
  [set_mode SpiSCK DIGITAL_OUTPUT;
   set_mode SpiMOSI DIGITAL_OUTPUT;
   set_mode SpiMISO DIGITAL_INPUT;
   set_mode SpiSS DIGITAL_OUTPUT;
   High SpiSS;
   set_mode SlaveSelect DIGITAL_OUTPUT;
   High SlaveSelect]
  ++ double_speed ++ [SPCR_write configuration].

(** The value [Init] writes to SPCR. *)
Definition Init_SPCR (order : DataOrder) (speed : Z) : Z :=
  snd (Init_speed speed (Init_order order)).

(** Whether [Init] calls [DoubleSpeed::set()]. *)
Definition Init_double_speed (order : DataOrder) (speed : Z) : bool :=
  match fst (Init_speed speed (Init_order order)) with
  | [] => false
  | _ :: _ => true
  end.

(** The speeds the [switch] has a case for. *)
Definition supported (speed : Z) : Prop :=
  In speed [2; 4; 8; 16; 32; 64; 128].

End Bits.

End SpiMaster.

Module SpiSlave.

Import Avr.

Section Bits.

(** Bit numbers of the register SPCR. *)
Variables SPE DORD SPIE : Z.

Definition Init_configuration (order : DataOrder) (enable_interrupt : bool)
  : Z :=
  let configuration := uint8_t (_BV SPE) in
  let configuration :=
    match order with
    | LSB_FIRST => uint8_t (Z.lor configuration (_BV DORD))
    | MSB_FIRST => configuration
    end in
  if enable_interrupt
  then uint8_t (Z.lor configuration (_BV SPIE))
  else configuration.

Definition Init (order : DataOrder) (enable_interrupt : bool) : list event :=
  [set_mode SpiSCK DIGITAL_INPUT;
   set_mode SpiMOSI DIGITAL_INPUT;
   set_mode SpiMISO DIGITAL_OUTPUT;
   set_mode SpiSS DIGITAL_INPUT;
   set_mode SlaveSelect DIGITAL_INPUT;
   SPCR_write (Init_configuration order enable_interrupt)].

End Bits.

End SpiSlave.

Module UartSpiMaster.

Import Avr.

Section Bits.

(** Bit numbers of the registers UCSR0C, UCSR0B and UCSR0A, and the width
    in bits of the register UBRR0. *)
Variables UMSEL01 UMSEL00 RXEN0 TXEN0 UDRE0 UBRR0_width : Z.

(** The value of [(speed / 2) - 1], computed on [int], as the register
    UBRR0 takes it. *)
Definition Init_UBRR0 (speed : Z) : Z :=
  (speed / 2 - 1) mod 2 ^ UBRR0_width.

Definition Init (speed : Z) : list event :=
  [set_mode SlaveSelect DIGITAL_OUTPUT;
   High SlaveSelect;
   UBRR0_write 0;
   set_mode UartSpiXCK DIGITAL_OUTPUT;
   set_mode UartSpiTX DIGITAL_OUTPUT;
   set_mode UartSpiRX DIGITAL_INPUT;
   UCSR0C_write (Z.lor (_BV UMSEL01) (_BV UMSEL00));
   UCSR0B_write (Z.lor (_BV RXEN0) (_BV TXEN0));
   UBRR0_write (Init_UBRR0 speed)].

(** The condition of the loop of [Wait], [!UCSR0A & _BV(UDRE0)], on a
    value read from UCSR0A: [!] binds tighter than [&]. *)
Definition Wait_condition (ucsr0a : Z) : Z :=
  Z.land (if ucsr0a =? 0 then 1 else 0) (_BV UDRE0).

(** [Wait] over the values UCSR0A shows at its successive reads: the loop
    reads the register until the condition is 0 and returns what is left
    of the values; [None] when the values run out while it still loops. *)
Fixpoint Wait (reads : list Z) : option (list Z) :=
  match reads with
  | [] => None
  | ucsr0a :: rest =>
      if Wait_condition ucsr0a =? 0 then Some rest else Wait rest
  end.

End Bits.

End UartSpiMaster.

(** * Properties *)

(** ** The decode rule of [RotaryEncoder::Read] *)

Module DecodeFacts.

Import RotaryEncoder.

(** The condition of the first branch, as a proposition. *)
Lemma plus_branch (a b : Z) :
  (a =? 0x80) && (Z.land b 0xf0 =? 0x00) = true <->
  a = 0x80 /\ Z.land b 0xF0 = 0.
Proof.
  rewrite andb_true_iff, !Z.eqb_eq. reflexivity.
Qed.

(** The condition of the second branch, as a proposition. *)
Lemma minus_branch (a b : Z) :
  (b =? 0x80) && (Z.land a 0xf0 =? 0x00) = true <->
  b = 0x80 /\ Z.land a 0xF0 = 0.
Proof.
  rewrite andb_true_iff, !Z.eqb_eq. reflexivity.
Qed.

(** The increment is one of the three steps. *)
Lemma decode_range (a b : Z) :
  decode a b = 1 \/ decode a b = -1 \/ decode a b = 0.
Proof.
  unfold decode.
  destruct ((a =? 0x80) && (Z.land b 0xf0 =? 0x00)); [now left|].
  destruct ((b =? 0x80) && (Z.land a 0xf0 =? 0x00)); [right; now left|].
  right; now right.
Qed.

Section WithSwitches.

Context {SA SB SC : Type}.
Context {SwitchA : DebouncedSwitch.t SA}.
Context {SwitchB : DebouncedSwitch.t SB}.
Context {SwitchClick : DebouncedSwitch.t SC}.

(** [Read] returns the decode rule applied to the two histories it reads. *)
Lemma Read_decode (e : RotaryEncoder.t SA SB SC) :
  snd (Read e) =
  decode (uint8_t (snd (DebouncedSwitch.Read (switch_a e))))
         (uint8_t (snd (DebouncedSwitch.Read (switch_b e)))).
Proof.
  unfold Read.
  destruct (DebouncedSwitch.Read (switch_a e)) as [sa ra].
  destruct (DebouncedSwitch.Read (switch_b e)) as [sb rb].
  destruct (DebouncedSwitch.Read (switch_click e)) as [sc rc].
  reflexivity.
Qed.

(** [Read] leaves each switch in the state its own [Read] produces, and
    does not touch the deadline. *)
Lemma Read_state (e : RotaryEncoder.t SA SB SC) :
  fst (Read e) =
  mk (fst (DebouncedSwitch.Read (switch_a e)))
     (fst (DebouncedSwitch.Read (switch_b e)))
     (fst (DebouncedSwitch.Read (switch_click e)))
     (next_readout_ e).
Proof.
  unfold Read.
  destruct (DebouncedSwitch.Read (switch_a e)) as [sa ra].
  destruct (DebouncedSwitch.Read (switch_b e)) as [sb rb].
  destruct (DebouncedSwitch.Read (switch_click e)) as [sc rc].
  reflexivity.
Qed.

(** The two conditions never hold together: 0x80 has bit 7 set, so its
    upper nibble is not clear. *)
Lemma branches_exclusive (a b : Z) :
  ~ ((a = 0x80 /\ Z.land b 0xF0 = 0) /\ (b = 0x80 /\ Z.land a 0xF0 = 0)).
Proof.
  intros [[Ha _] [_ Hb]]. subst a. discriminate Hb.
Qed.

(** C1, amended: on the input where both histories are exactly 0x80 neither
    branch is taken and the rule gives 0, and [Read] returns 0 whenever both
    channels read 0x80; the conditions of the two branches exclude each
    other on every input, so the order of the branches never decides. *)
Theorem decode_simultaneous_edges :
  decode 0x80 0x80 = 0 /\
  (forall a b : Z,
      ~ ((a = 0x80 /\ Z.land b 0xF0 = 0) /\ (b = 0x80 /\ Z.land a 0xF0 = 0))) /\
  forall e : RotaryEncoder.t SA SB SC,
    uint8_t (snd (DebouncedSwitch.Read (switch_a e))) = 0x80 ->
    uint8_t (snd (DebouncedSwitch.Read (switch_b e))) = 0x80 ->
    snd (Read e) = 0.
Proof.
  split; [reflexivity|]. split; [exact branches_exclusive|].
  intros e Ha Hb. rewrite Read_decode, Ha, Hb. reflexivity.
Qed.

End WithSwitches.

(** The rule gives +1 exactly when [a] is 0x80 and the upper nibble of
    [b] is clear; this holds for all integers, so for all 8-bit histories. *)
Theorem decode_plus_iff (a b : Z) :
  decode a b = 1 <-> a = 0x80 /\ Z.land b 0xF0 = 0.
Proof.
  rewrite <- plus_branch. unfold decode.
  destruct ((a =? 0x80) && (Z.land b 0xf0 =? 0x00)).
  - split; reflexivity.
  - destruct ((b =? 0x80) && (Z.land a 0xf0 =? 0x00)); split; discriminate.
Qed.

(** The rule gives -1 exactly when [b] is 0x80, the upper nibble of [a]
    is clear and the +1 condition does not hold as well; on every pair that
    meets neither condition it gives 0. *)
Theorem decode_minus_iff (a b : Z) :
  (decode a b = -1 <->
   (b = 0x80 /\ Z.land a 0xF0 = 0) /\ ~ (a = 0x80 /\ Z.land b 0xF0 = 0)) /\
  (~ (a = 0x80 /\ Z.land b 0xF0 = 0) ->
   ~ ((b = 0x80 /\ Z.land a 0xF0 = 0) /\ ~ (a = 0x80 /\ Z.land b 0xF0 = 0)) ->
   decode a b = 0).
Proof.
  rewrite <- plus_branch, <- minus_branch. unfold decode.
  destruct ((a =? 0x80) && (Z.land b 0xf0 =? 0x00));
    destruct ((b =? 0x80) && (Z.land a 0xf0 =? 0x00));
    (split; [split|]); try discriminate; try reflexivity; try tauto.
  all: intros; intuition congruence.
Qed.

(** C1, counterexample: on two histories 0x80 the rule does not give +1,
    and neither does [Read] when both channels read 0x80. *)
Lemma decode_no_tie_break :
  decode 0x80 0x80 <> 1 /\
  uint8_t (snd (DebouncedSwitch.Read (switch_a Scenario.both_edges))) = 0x80 /\
  uint8_t (snd (DebouncedSwitch.Read (switch_b Scenario.both_edges))) = 0x80 /\
  snd (Read Scenario.both_edges) <> 1.
Proof.
  repeat split; try reflexivity; vm_compute; discriminate.
Qed.

(** C1, witness: both channels read 0x80 and [Read] returns 0. *)
Lemma decode_simultaneous_edges_witness :
  uint8_t (snd (DebouncedSwitch.Read (switch_a Scenario.both_edges))) = 0x80 /\
  uint8_t (snd (DebouncedSwitch.Read (switch_b Scenario.both_edges))) = 0x80 /\
  snd (Read Scenario.both_edges) = 0.
Proof.
  split; [reflexivity|]. split; [reflexivity|].
  apply (proj2 (proj2 decode_simultaneous_edges) Scenario.both_edges);
    reflexivity.
Defined.

(** The rule on a pair on which A leads. *)
Lemma decode_plus_iff_witness : decode 0x80 0x00 = 1.
Proof.
  apply (proj2 (decode_plus_iff 0x80 0x00)). split; reflexivity.
Defined.

(** The rule on a pair on which B leads, and on a pair with no edge. *)
Lemma decode_minus_iff_witness :
  decode 0x00 0x80 = -1 /\ decode 0xFF 0xFF = 0.
Proof.
  split.
  - apply (proj2 (proj1 (decode_minus_iff 0x00 0x80))).
    split; [split; reflexivity|]. intros [H _]. discriminate H.
  - apply (proj2 (decode_minus_iff 0xFF 0xFF)).
    + intros [H _]. discriminate H.
    + intros [[H _] _]. discriminate H.
Defined.

Section ReadRule.

Context {SA SB SC : Type}.
Context {SwitchA : DebouncedSwitch.t SA}.
Context {SwitchB : DebouncedSwitch.t SB}.
Context {SwitchClick : DebouncedSwitch.t SC}.

(** C4: with [a] the history [Read] reads from channel A and [b] the one
    it reads from channel B, [Read] returns +1 exactly when [a] is 0x80 and
    the upper nibble of [b] is clear, for every decoder state and every
    behaviour of the switches; the rule [Read] applies gives +1 on exactly
    these pairs of histories. *)
Theorem Read_plus_iff (e : RotaryEncoder.t SA SB SC) :
  (snd (Read e) = 1 <->
   uint8_t (snd (DebouncedSwitch.Read (switch_a e))) = 0x80 /\
   Z.land (uint8_t (snd (DebouncedSwitch.Read (switch_b e)))) 0xF0 = 0) /\
  (forall a b : Z, decode a b = 1 <-> a = 0x80 /\ Z.land b 0xF0 = 0).
Proof.
  split.
  - rewrite Read_decode. apply decode_plus_iff.
  - exact decode_plus_iff.
Qed.

(** C5: with [a] and [b] the histories [Read] reads from channels A and B,
    [Read] returns -1 exactly when [b] is 0x80, the upper nibble of [a] is
    clear and the +1 condition does not hold as well, and it returns 0 on
    every pair that meets neither condition, for every decoder state and
    every behaviour of the switches; the same holds of the rule [Read]
    applies, on all pairs of histories. *)
Theorem Read_minus_iff (e : RotaryEncoder.t SA SB SC) :
  (snd (Read e) = -1 <->
   (uint8_t (snd (DebouncedSwitch.Read (switch_b e))) = 0x80 /\
    Z.land (uint8_t (snd (DebouncedSwitch.Read (switch_a e)))) 0xF0 = 0) /\
   ~ (uint8_t (snd (DebouncedSwitch.Read (switch_a e))) = 0x80 /\
      Z.land (uint8_t (snd (DebouncedSwitch.Read (switch_b e)))) 0xF0 = 0)) /\
  (~ (uint8_t (snd (DebouncedSwitch.Read (switch_a e))) = 0x80 /\
      Z.land (uint8_t (snd (DebouncedSwitch.Read (switch_b e)))) 0xF0 = 0) ->
   ~ ((uint8_t (snd (DebouncedSwitch.Read (switch_b e))) = 0x80 /\
       Z.land (uint8_t (snd (DebouncedSwitch.Read (switch_a e)))) 0xF0 = 0) /\
      ~ (uint8_t (snd (DebouncedSwitch.Read (switch_a e))) = 0x80 /\
         Z.land (uint8_t (snd (DebouncedSwitch.Read (switch_b e)))) 0xF0 = 0)) ->
   snd (Read e) = 0) /\
  (forall a b : Z,
      (decode a b = -1 <->
       (b = 0x80 /\ Z.land a 0xF0 = 0) /\
       ~ (a = 0x80 /\ Z.land b 0xF0 = 0)) /\
      (~ (a = 0x80 /\ Z.land b 0xF0 = 0) ->
       ~ ((b = 0x80 /\ Z.land a 0xF0 = 0) /\
          ~ (a = 0x80 /\ Z.land b 0xF0 = 0)) ->
       decode a b = 0)).
Proof.
  rewrite Read_decode.
  split; [apply decode_minus_iff|].
  split; [apply decode_minus_iff|].
  exact decode_minus_iff.
Qed.

End ReadRule.

(** C4, witness: channel A shows a clean edge while B is low, and [Read]
    returns +1. *)
Lemma Read_plus_iff_witness :
  (uint8_t (snd (DebouncedSwitch.Read (switch_a Scenario.a_leads))) = 0x80 /\
   Z.land (uint8_t (snd (DebouncedSwitch.Read (switch_b Scenario.a_leads))))
          0xF0 = 0) /\
  snd (Read Scenario.a_leads) = 1.
Proof.
  assert (H : uint8_t (snd (DebouncedSwitch.Read
                              (switch_a Scenario.a_leads))) = 0x80 /\
              Z.land (uint8_t (snd (DebouncedSwitch.Read
                                      (switch_b Scenario.a_leads))))
                     0xF0 = 0) by (split; reflexivity).
  split; [exact H|].
  exact (proj2 (proj1 (Read_plus_iff Scenario.a_leads)) H).
Defined.

(** C5, witness: channel B shows a clean edge while A is low, and [Read]
    returns -1; with both channels low [Read] returns 0. *)
Lemma Read_minus_iff_witness :
  snd (Read Scenario.b_leads) = -1 /\ snd (Read Scenario.button_edge) = 0.
Proof.
  split.
  - apply (proj2 (proj1 (Read_minus_iff Scenario.b_leads))).
    split; [split; reflexivity|]. intros [H _]. discriminate H.
  - apply (proj1 (proj2 (Read_minus_iff Scenario.button_edge))).
    + intros [H _]. discriminate H.
    + intros [[H _] _]. discriminate H.
Defined.

End DecodeFacts.

(** ** The rate limiter [RotaryEncoder::TimedRead] *)

Module TimedReadFacts.

Import RotaryEncoder.

Lemma uint32_t_range (x : Z) : 0 <= uint32_t x < 4294967296.
Proof. unfold uint32_t. apply Z.mod_pos_bound. reflexivity. Qed.

Lemma uint32_t_small (x : Z) : 0 <= x < 4294967296 -> uint32_t x = x.
Proof. intros H. unfold uint32_t. now apply Z.mod_small. Qed.

(** The plain comparison and the wrap-safe one agree on two 32-bit values
    less than half the range apart. *)
Lemma wrap_safe_due_near (t n : Z) :
  -2147483648 <= t - n < 2147483648 ->
  wrap_safe_due t n = (t >=? n).
Proof.
  intros H. unfold wrap_safe_due, uint32_t. rewrite Z.geb_leb.
  destruct (Z.leb_spec n t) as [Hle|Hlt].
  - rewrite Z.mod_small by lia. apply Z.ltb_lt. lia.
  - replace (t - n) with (t - n + 4294967296 + (-1) * 4294967296) by lia.
    rewrite Z.mod_add by discriminate.
    rewrite Z.mod_small by lia. apply Z.ltb_ge. lia.
Qed.

(** On 32-bit values the two comparisons differ on every pair that is half
    the range or more apart. *)
Lemma wrap_safe_due_far (t n : Z) :
  0 <= t < 4294967296 -> 0 <= n < 4294967296 ->
  ~ (-2147483648 <= t - n < 2147483648) ->
  wrap_safe_due t n = negb (t >=? n).
Proof.
  intros Ht Hn H. unfold wrap_safe_due, uint32_t. rewrite Z.geb_leb.
  destruct (Z.leb_spec n t) as [Hle|Hlt]; simpl.
  - rewrite Z.mod_small by lia. apply Z.ltb_ge. lia.
  - replace (t - n) with (t - n + 4294967296 + (-1) * 4294967296) by lia.
    rewrite Z.mod_add by discriminate.
    rewrite Z.mod_small by lia. apply Z.ltb_lt. lia.
Qed.

Section WithSwitches.

Context {SA SB SC : Type}.
Context {SwitchA : DebouncedSwitch.t SA}.
Context {SwitchB : DebouncedSwitch.t SB}.
Context {SwitchClick : DebouncedSwitch.t SC}.

Variable debounce_time : Z.

Implicit Type e : RotaryEncoder.t SA SB SC.

Lemma TimedRead_early now e :
  uint32_t now < next_readout_ e ->
  TimedRead debounce_time now e = (e, 0).
Proof.
  intros H. unfold TimedRead. rewrite Z.geb_leb.
  destruct (Z.leb_spec (next_readout_ e) (uint32_t now)); [lia|reflexivity].
Qed.

Lemma TimedRead_due now e :
  next_readout_ e <= uint32_t now ->
  TimedRead debounce_time now e =
  Read (set_next_readout_ (uint32_t (uint32_t now + debounce_time)) e).
Proof.
  intros H. unfold TimedRead. rewrite Z.geb_leb.
  destruct (Z.leb_spec (next_readout_ e) (uint32_t now)); [reflexivity|lia].
Qed.

Lemma TimedRead_due_deadline now e :
  next_readout_ e <= uint32_t now ->
  next_readout_ (fst (TimedRead debounce_time now e)) =
  uint32_t (uint32_t now + debounce_time).
Proof.
  intros H. rewrite (TimedRead_due _ _ H), DecodeFacts.Read_state.
  reflexivity.
Qed.

(** C2, amended: [TimedRead] compares the two 32-bit values directly: it
    reads exactly when the deadline is at most the time, as integers.  This
    is the wrap-safe rate limiter whenever time and deadline are less than
    half the clock's range apart, that is when the pair does not straddle
    the wrap of the clock; on a pair further apart the test of [TimedRead]
    is the opposite of the wrap-safe one. *)
Theorem TimedRead_plain_comparison now e :
  TimedRead debounce_time now e =
  (if next_readout_ e <=? uint32_t now
   then Read (set_next_readout_ (uint32_t (uint32_t now + debounce_time)) e)
   else (e, 0)) /\
  (-2147483648 <= uint32_t now - next_readout_ e < 2147483648 ->
   TimedRead debounce_time now e =
   timed_decode_wrap_safe debounce_time now e) /\
  (0 <= next_readout_ e < 4294967296 ->
   ~ (-2147483648 <= uint32_t now - next_readout_ e < 2147483648) ->
   (next_readout_ e <=? uint32_t now) =
   negb (wrap_safe_due (uint32_t now) (next_readout_ e))).
Proof.
  split; [|split].
  - unfold TimedRead. rewrite Z.geb_leb. reflexivity.
  - intros H. unfold TimedRead, timed_decode_wrap_safe.
    rewrite (wrap_safe_due_near _ _ H). reflexivity.
  - intros Hn H.
    rewrite (wrap_safe_due_far _ _ (uint32_t_range now) Hn H).
    rewrite negb_involutive, Z.geb_leb. reflexivity.
Qed.

(** C6, amended: when the time is below the deadline [TimedRead] returns 0
    and leaves the whole state as it is; otherwise it sets the deadline to
    the time plus the debounce time, modulo 2^32, and returns what [Read]
    returns.  After an accepted call whose new deadline did not wrap, a
    call less than the debounce time later returns 0 and leaves the state
    as it is. *)
Theorem TimedRead_rate_limit now e :
  (uint32_t now < next_readout_ e ->
   TimedRead debounce_time now e = (e, 0)) /\
  (next_readout_ e <= uint32_t now ->
   TimedRead debounce_time now e =
   Read (set_next_readout_ (uint32_t (uint32_t now + debounce_time)) e) /\
   next_readout_ (fst (TimedRead debounce_time now e)) =
   uint32_t (uint32_t now + debounce_time)) /\
  (forall now2,
      next_readout_ e <= uint32_t now ->
      0 <= debounce_time ->
      uint32_t now + debounce_time < 4294967296 ->
      uint32_t now2 - uint32_t now < debounce_time ->
      TimedRead debounce_time now2 (fst (TimedRead debounce_time now e)) =
      (fst (TimedRead debounce_time now e), 0)).
Proof.
  split; [apply TimedRead_early|].
  split.
  - intros H. split; [now apply TimedRead_due|now apply TimedRead_due_deadline].
  - intros now2 Hdue Hd Hwrap Hlt. apply TimedRead_early.
    rewrite (TimedRead_due_deadline _ _ Hdue).
    pose proof (uint32_t_range now) as Hr.
    rewrite (uint32_t_small (uint32_t now + debounce_time)) by lia. lia.
Qed.

End WithSwitches.

(** C2, counterexample: the deadline is 0xFFFFFFFF and the clock has wrapped
    to 0, one millisecond after the deadline.  The wrap-safe comparison
    finds the read due, and the wrap-safe rate limiter returns the step +1;
    [TimedRead] returns 0 and leaves the state as it is. *)
Lemma TimedRead_not_wrap_safe :
  TimedRead 1 0xFFFFFFFE Scenario.near_top = (Scenario.deadline_at_top, 0) /\
  wrap_safe_due (uint32_t 0) (next_readout_ Scenario.deadline_at_top) = true /\
  TimedRead 1 0 Scenario.deadline_at_top = (Scenario.deadline_at_top, 0) /\
  snd (timed_decode_wrap_safe 1 0 Scenario.deadline_at_top) = 1 /\
  TimedRead 1 0 Scenario.deadline_at_top <>
  timed_decode_wrap_safe 1 0 Scenario.deadline_at_top.
Proof.
  repeat split; try (vm_compute; reflexivity).
  vm_compute. discriminate.
Qed.

(** C2, witness: one millisecond before the deadline, far from the wrap,
    the two rate limiters agree; across the wrap the two tests are opposite. *)
Lemma TimedRead_plain_comparison_witness :
  (-2147483648 <=
   uint32_t 4 - next_readout_ (set_next_readout_ 5 Scenario.a_leads) <
   2147483648 /\
   TimedRead 1 4 (set_next_readout_ 5 Scenario.a_leads) =
   timed_decode_wrap_safe 1 4 (set_next_readout_ 5 Scenario.a_leads)) /\
  (next_readout_ Scenario.deadline_at_top <=? uint32_t 0) =
  negb (wrap_safe_due (uint32_t 0) (next_readout_ Scenario.deadline_at_top)).
Proof.
  split;
    [|apply (proj2 (proj2 (TimedRead_plain_comparison
                             1 0 Scenario.deadline_at_top)));
      [vm_compute; split; congruence
      |intros [H _]; vm_compute in H; congruence]].
  assert (H : -2147483648 <=
              uint32_t 4 -
              next_readout_ (set_next_readout_ 5 Scenario.a_leads) <
              2147483648) by (vm_compute; split; congruence).
  split; [exact H|].
  exact (proj1 (proj2 (TimedRead_plain_comparison
                         1 4 (set_next_readout_ 5 Scenario.a_leads))) H).
Defined.

(** C6, counterexample: the debounce time is 1 and a call is accepted at
    the time 0xFFFFFFFF, so the new deadline wraps to 0.  A second call in
    the same millisecond is accepted as well: it samples the channels and
    returns +1. *)
Lemma TimedRead_twice_at_wrap :
  next_readout_ Scenario.a_leads_later <= uint32_t 0xFFFFFFFF /\
  TimedRead 1 0xFFFFFFFF Scenario.a_leads_later = (Scenario.a_leads, 0) /\
  0xFFFFFFFF - 0xFFFFFFFF < 1 /\
  snd (TimedRead 1 0xFFFFFFFF Scenario.a_leads) = 1 /\
  fst (TimedRead 1 0xFFFFFFFF Scenario.a_leads) <> Scenario.a_leads.
Proof.
  repeat split; try (vm_compute; reflexivity); try (vm_compute; discriminate).
Qed.

(** C6, witness: a call accepted at the time 10 with a debounce time of 5,
    then a call at the time 12. *)
Lemma TimedRead_rate_limit_witness :
  next_readout_ Scenario.a_leads_later <= uint32_t 10 /\
  0 <= 5 /\
  uint32_t 10 + 5 < 4294967296 /\
  uint32_t 12 - uint32_t 10 < 5 /\
  TimedRead 5 12 (fst (TimedRead 5 10 Scenario.a_leads_later)) =
  (fst (TimedRead 5 10 Scenario.a_leads_later), 0).
Proof.
  assert (H1 : next_readout_ Scenario.a_leads_later <= uint32_t 10)
    by (vm_compute; congruence).
  assert (H2 : 0 <= 5) by (vm_compute; congruence).
  assert (H3 : uint32_t 10 + 5 < 4294967296) by (vm_compute; congruence).
  assert (H4 : uint32_t 12 - uint32_t 10 < 5) by (vm_compute; congruence).
  repeat (split; [assumption|]).
  exact (proj2 (proj2 (TimedRead_rate_limit 5 10 Scenario.a_leads_later))
               12 H1 H2 H3 H4).
Defined.

End TimedReadFacts.

(** ** The button channel in [RotaryEncoder::Read] and [clicked] *)

Module ButtonFacts.

Import RotaryEncoder.

Section WithSwitches.

Context {SA SB SC : Type}.
Context {SwitchA : DebouncedSwitch.t SA}.
Context {SwitchB : DebouncedSwitch.t SB}.
Context {SwitchClick : DebouncedSwitch.t SC}.

Implicit Type e : RotaryEncoder.t SA SB SC.

Lemma clicked_unfold e :
  clicked e =
  (mk (switch_a e) (switch_b e)
      (fst (DebouncedSwitch.raised (switch_click e))) (next_readout_ e),
   uint8_t (if snd (DebouncedSwitch.raised (switch_click e)) then 1 else 0)).
Proof.
  unfold clicked.
  destruct (DebouncedSwitch.raised (switch_click e)) as [sc r]. reflexivity.
Qed.

(** C8: every [Read] leaves the button's switch in the state the switch's
    own [Read] produces, whatever increment is returned, 0 included; the
    transition flag is not read there but by [clicked], which returns the
    flag and samples nothing. *)
Theorem Read_samples_button e :
  switch_click (fst (Read e)) = fst (DebouncedSwitch.Read (switch_click e)) /\
  snd (clicked e) =
  uint8_t (if snd (DebouncedSwitch.raised (switch_click e)) then 1 else 0) /\
  fst (clicked e) =
  mk (switch_a e) (switch_b e)
     (fst (DebouncedSwitch.raised (switch_click e))) (next_readout_ e).
Proof.
  rewrite DecodeFacts.Read_state, clicked_unfold. simpl.
  repeat split; reflexivity.
Qed.

End WithSwitches.

(** A [Read] that returns 0 while the button is pressed: the button's
    history advances from 0 to 0x80 and its flag is raised; [clicked] then
    returns 1 and leaves the history alone. *)
Example Read_zero_step_button_edge :
  snd (Read Scenario.button_edge) = 0 /\
  SpecSwitch.history (switch_click Scenario.button_edge) = 0 /\
  SpecSwitch.history (switch_click (fst (Read Scenario.button_edge))) = 0x80 /\
  snd (clicked (fst (Read Scenario.button_edge))) = 1 /\
  SpecSwitch.history
    (switch_click (fst (clicked (fst (Read Scenario.button_edge))))) = 0x80.
Proof. repeat split; vm_compute; reflexivity. Qed.

(** C8, witness: the same read, through the theorem. *)
Lemma Read_samples_button_witness :
  snd (Read Scenario.button_edge) = 0 /\
  switch_click (fst (Read Scenario.button_edge)) =
  SpecSwitch.mk 0x80 true [].
Proof.
  split; [reflexivity|].
  rewrite (proj1 (Read_samples_button Scenario.button_edge)).
  reflexivity.
Defined.

End ButtonFacts.

(** ** The latch [RotaryEncoderTracker] *)

Module TrackerFacts.

Import RotaryEncoderTracker.

Lemma uint8_t_range (x : Z) : 0 <= uint8_t x < 256.
Proof. unfold uint8_t. apply Z.mod_pos_bound. reflexivity. Qed.

Section WithSwitches.

Context {SA SB SC : Type}.
Context {SwitchA : DebouncedSwitch.t SA}.
Context {SwitchB : DebouncedSwitch.t SB}.
Context {SwitchClick : DebouncedSwitch.t SC}.

Implicit Type k : RotaryEncoderTracker.t SA SB SC.

Lemma Read_increment_latched k :
  increment_ k <> 0 -> Read_increment k = k.
Proof.
  intros H. unfold Read_increment.
  destruct (Z.eqb_spec (increment_ k) 0); [contradiction|reflexivity].
Qed.

Lemma Read_increment_armed k :
  increment_ k = 0 ->
  Read_increment k =
  mk (fst (RotaryEncoder.Read (encoder k)))
     (snd (RotaryEncoder.Read (encoder k))) (clicked_ k).
Proof.
  intros H. unfold Read_increment. rewrite H. simpl.
  destruct (RotaryEncoder.Read (encoder k)) as [e r]. reflexivity.
Qed.

Lemma Read_clicked_latched k :
  clicked_ k <> 0 -> Read_clicked k = k.
Proof.
  intros H. unfold Read_clicked.
  destruct (Z.eqb_spec (clicked_ k) 0); [contradiction|reflexivity].
Qed.

Lemma Read_clicked_armed k :
  clicked_ k = 0 ->
  Read_clicked k =
  mk (fst (RotaryEncoder.clicked (encoder k))) (increment_ k)
     (snd (RotaryEncoder.clicked (encoder k))).
Proof.
  intros H. unfold Read_clicked. rewrite H. simpl.
  destruct (RotaryEncoder.clicked (encoder k)) as [e r]. reflexivity.
Qed.

(** The second statement of [Read] never writes [increment_]. *)
Lemma Read_clicked_increment_ k :
  increment_ (Read_clicked k) = increment_ k.
Proof.
  destruct (Z.eq_dec (clicked_ k) 0) as [H|H].
  - rewrite (Read_clicked_armed _ H). reflexivity.
  - rewrite (Read_clicked_latched _ H). reflexivity.
Qed.

(** The first statement of [Read] never writes [clicked_]. *)
Lemma Read_increment_clicked_ k :
  clicked_ (Read_increment k) = clicked_ k.
Proof.
  destruct (Z.eq_dec (increment_ k) 0) as [H|H].
  - rewrite (Read_increment_armed _ H). reflexivity.
  - rewrite (Read_increment_latched _ H). reflexivity.
Qed.

Lemma Read_keeps_increment_ k :
  increment_ k <> 0 -> increment_ (Read k) = increment_ k.
Proof.
  intros H. unfold Read.
  rewrite Read_clicked_increment_, (Read_increment_latched _ H). reflexivity.
Qed.

Lemma Read_keeps_clicked_ k :
  clicked_ k <> 0 -> clicked_ (Read k) = clicked_ k.
Proof.
  intros H. unfold Read.
  rewrite Read_clicked_latched; rewrite Read_increment_clicked_;
    [reflexivity|exact H].
Qed.

(** Successive polls are a run without [Flush]. *)
Lemma Read_times_unflushed n k : unflushed k (Read_times n k).
Proof.
  induction n as [|n IH]; simpl.
  - apply unflushed_refl.
  - apply unflushed_Read. exact IH.
Qed.

(** C7: along any run without [Flush] (polls in any number, the decoder
    changing in any way in between), a step that is latched stays what it
    is, and so does a click that is latched, each field on its own; the
    accessors return the same values throughout. *)
Theorem latch_coalesces k k' :
  unflushed k k' ->
  (increment_ k <> 0 ->
   increment_ k' = increment_ k /\ increment k' = increment k) /\
  (clicked_ k <> 0 ->
   clicked_ k' = clicked_ k /\ clicked k' = clicked k).
Proof.
  intros Hrun.
  assert (Hfields : (increment_ k <> 0 -> increment_ k' = increment_ k) /\
                    (clicked_ k <> 0 -> clicked_ k' = clicked_ k)).
  { induction Hrun as [k|k k' Hrun [IHi IHc]|k k' e Hrun [IHi IHc]].
    - split; reflexivity.
    - split; intros H.
      + rewrite Read_keeps_increment_; rewrite (IHi H); [reflexivity|exact H].
      + rewrite Read_keeps_clicked_; rewrite (IHc H); [reflexivity|exact H].
    - split; intros H; simpl; auto. }
  destruct Hfields as [Hi Hc].
  split; intros H.
  - unfold increment. rewrite (Hi H). split; reflexivity.
  - unfold clicked. rewrite (Hc H). split; reflexivity.
Qed.

(** C9: after [Flush] both accessors return 0, whatever the latch held;
    the decoder is left as it is, and the next poll takes the step from the
    decoder again. *)
Theorem Flush_rearms k :
  increment (Flush k) = 0 /\
  clicked (Flush k) = 0 /\
  increment_ (Flush k) = 0 /\
  clicked_ (Flush k) = 0 /\
  encoder (Flush k) = encoder k /\
  Read_increment (Flush k) =
  mk (fst (RotaryEncoder.Read (encoder k)))
     (snd (RotaryEncoder.Read (encoder k))) 0.
Proof.
  repeat split.
  rewrite Read_increment_armed by reflexivity. reflexivity.
Qed.

(** The second statement of [Read] samples nothing: channels A and B, the
    deadline and the button's history are as before. *)
Lemma Read_clicked_frame k :
  RotaryEncoder.switch_a (encoder (Read_clicked k)) =
  RotaryEncoder.switch_a (encoder k) /\
  RotaryEncoder.switch_b (encoder (Read_clicked k)) =
  RotaryEncoder.switch_b (encoder k) /\
  DebouncedSwitch.state (RotaryEncoder.switch_click (encoder (Read_clicked k))) =
  DebouncedSwitch.state (RotaryEncoder.switch_click (encoder k)) /\
  RotaryEncoder.next_readout_ (encoder (Read_clicked k)) =
  RotaryEncoder.next_readout_ (encoder k).
Proof.
  destruct (Z.eq_dec (clicked_ k) 0) as [H|H].
  - rewrite (Read_clicked_armed _ H). simpl.
    rewrite ButtonFacts.clicked_unfold. simpl.
    rewrite DebouncedSwitch.raised_state. repeat split.
  - rewrite (Read_clicked_latched _ H). repeat split.
Qed.

(** An armed poll does sample: the first statement of [Read] runs the
    decoder's [Read]. *)
Lemma Read_increment_samples k :
  increment_ k = 0 ->
  encoder (Read_increment k) = fst (RotaryEncoder.Read (encoder k)).
Proof.
  intros H. rewrite (Read_increment_armed _ H). reflexivity.
Qed.

(** C10: while a step is latched, polls in any number leave channel A,
    channel B, the deadline and the button's history as they are, and the
    step as well: the decoder's [Read] is not run.  In such a poll the
    button's switch is only asked for its flag, and an armed click field
    takes the value of that flag as it stood before the poll. *)
Theorem latched_step_suppresses_sampling k :
  increment_ k <> 0 ->
  (forall n : nat,
      RotaryEncoder.switch_a (encoder (Read_times n k)) =
      RotaryEncoder.switch_a (encoder k) /\
      RotaryEncoder.switch_b (encoder (Read_times n k)) =
      RotaryEncoder.switch_b (encoder k) /\
      DebouncedSwitch.state
        (RotaryEncoder.switch_click (encoder (Read_times n k))) =
      DebouncedSwitch.state (RotaryEncoder.switch_click (encoder k)) /\
      RotaryEncoder.next_readout_ (encoder (Read_times n k)) =
      RotaryEncoder.next_readout_ (encoder k) /\
      increment_ (Read_times n k) = increment_ k) /\
  Read k = Read_clicked k /\
  RotaryEncoder.switch_click (encoder (Read k)) =
  (if clicked_ k =? 0
   then fst (DebouncedSwitch.raised (RotaryEncoder.switch_click (encoder k)))
   else RotaryEncoder.switch_click (encoder k)) /\
  (clicked_ k = 0 ->
   clicked_ (Read k) =
   uint8_t (if snd (DebouncedSwitch.raised
                      (RotaryEncoder.switch_click (encoder k)))
            then 1 else 0) /\
   (clicked_ (Read k) <> 0 ->
    snd (DebouncedSwitch.raised (RotaryEncoder.switch_click (encoder k))) =
    true)).
Proof.
  intros Hstep.
  assert (Hread : Read k = Read_clicked k).
  { unfold Read. rewrite (Read_increment_latched _ Hstep). reflexivity. }
  split; [|split; [exact Hread|split]].
  - induction n as [|n IH]; simpl.
    + repeat split.
    + destruct IH as (Ha & Hb & Hc & Hn & Hi).
      assert (Hlatched : increment_ (Read_times n k) <> 0) by congruence.
      unfold Read at 1 2 3 4 5.
      rewrite (Read_increment_latched _ Hlatched).
      destruct (Read_clicked_frame (Read_times n k)) as (Fa & Fb & Fc & Fn).
      rewrite Fa, Fb, Fc, Fn, Read_clicked_increment_.
      repeat split; assumption.
  - rewrite Hread.
    destruct (Z.eqb_spec (clicked_ k) 0) as [H|H].
    + rewrite (Read_clicked_armed _ H). simpl.
      rewrite ButtonFacts.clicked_unfold. reflexivity.
    + rewrite (Read_clicked_latched _ H). reflexivity.
  - intros H. rewrite Hread, (Read_clicked_armed _ H). simpl.
    rewrite ButtonFacts.clicked_unfold. simpl.
    split; [reflexivity|].
    destruct (snd (DebouncedSwitch.raised
                     (RotaryEncoder.switch_click (encoder k)))).
    + reflexivity.
    + intros Hne. exfalso. apply Hne. reflexivity.
Qed.

(** The accessor [increment] returns a value of [uint8_t], so never -1. *)
Lemma increment_range k : 0 <= increment k < 256.
Proof. apply uint8_t_range. Qed.

End WithSwitches.

(** Whenever the latch holds -1 the accessor returns 255. *)
Lemma increment_of_minus_one (SA SB SC : Type)
      (k : RotaryEncoderTracker.t SA SB SC) :
  increment_ k = -1 -> increment k = 255.
Proof. intros H. unfold increment. rewrite H. reflexivity. Qed.

(** C3: the latch takes the step -1 from the decoder when B leads, and the
    accessor [increment] then returns 255. *)
Theorem increment_of_negative_step :
  snd (RotaryEncoder.Read Scenario.b_leads) = -1 /\
  increment_ (Read (Scenario.armed Scenario.b_leads)) = -1 /\
  increment (Read (Scenario.armed Scenario.b_leads)) = 255.
Proof. repeat split. Qed.

(** C7, witness: a latched +1 survives a poll, a decoder on which B leads
    and a further poll; a latched click survives two polls. *)
Lemma latch_coalesces_witness :
  increment_ Scenario.latched_step <> 0 /\
  increment_
    (Read (set_encoder Scenario.b_leads (Read Scenario.latched_step))) = 1 /\
  clicked_ Scenario.latched_click <> 0 /\
  clicked_ (Read (Read Scenario.latched_click)) = 1.
Proof.
  split; [discriminate|]. split; [|split; [discriminate|]].
  - apply (proj1 (latch_coalesces Scenario.latched_step _
                    (unflushed_Read _ _
                       (unflushed_encoder _ _ Scenario.b_leads
                          (unflushed_Read _ _ (unflushed_refl _)))))).
    discriminate.
  - apply (proj2 (latch_coalesces Scenario.latched_click _
                    (unflushed_Read _ _
                       (unflushed_Read _ _ (unflushed_refl _))))).
    discriminate.
Defined.

(** C10, witness: with +1 latched, three polls leave the edge that waits
    on channel B unsampled, and the first of them latches the click from
    the flag that was raised before. *)
Lemma latched_step_suppresses_sampling_witness :
  increment_ Scenario.latched_step <> 0 /\
  RotaryEncoder.switch_b (encoder (Read_times 3 Scenario.latched_step)) =
  SpecSwitch.low [true] /\
  clicked_ (Read Scenario.latched_step) = 1.
Proof.
  split; [discriminate|]. split.
  - rewrite (proj1 (proj2
               (proj1 (latched_step_suppresses_sampling Scenario.latched_step
                         ltac:(discriminate)) 3%nat))).
    reflexivity.
  - rewrite (proj1 (proj2 (proj2 (proj2
               (latched_step_suppresses_sampling Scenario.latched_step
                  ltac:(discriminate)))) eq_refl)).
    reflexivity.
Defined.

(** The two fields are not independent: with a step latched, a button edge
    that arrives is not sampled and no click is latched, however often the
    latch is polled; with the latch armed the same edge is latched by one
    poll. *)
Example latched_step_hides_button_edge :
  clicked_ (Read_times 9
              (mk Scenario.button_edge 1 0 : Scenario.Tracker)) = 0 /\
  clicked_ (Read (Scenario.armed Scenario.button_edge)) = 1.
Proof. split; reflexivity. Qed.

End TrackerFacts.

(** ** Sequences of calls on the decoder *)

Module EncoderCallFacts.

Import RotaryEncoder EncoderCalls.

Section WithSwitches.

Context {SA SB SC : Type}.
Context {SwitchA : DebouncedSwitch.t SA}.
Context {SwitchB : DebouncedSwitch.t SB}.
Context {SwitchClick : DebouncedSwitch.t SC}.

Variable debounce_time : Z.

Implicit Type e : RotaryEncoder.t SA SB SC.

(** X1: the first [TimedRead] after [Init] is accepted whatever the clock
    shows, since [Init] sets the deadline to 0: it samples the three
    switches as [Init] left them and moves the deadline to the time plus
    the debounce time, modulo 2^32. *)
Theorem Init_then_TimedRead now e :
  TimedRead debounce_time now (Init e) =
  Read (set_next_readout_ (uint32_t (uint32_t now + debounce_time)) (Init e)) /\
  fst (TimedRead debounce_time now (Init e)) =
  mk (fst (DebouncedSwitch.Read (DebouncedSwitch.Init (switch_a e))))
     (fst (DebouncedSwitch.Read (DebouncedSwitch.Init (switch_b e))))
     (fst (DebouncedSwitch.Read (DebouncedSwitch.Init (switch_click e))))
     (uint32_t (uint32_t now + debounce_time)).
Proof.
  assert (Hdue : next_readout_ (Init e) <= uint32_t now).
  { simpl. apply TimedReadFacts.uint32_t_range. }
  split.
  - apply TimedReadFacts.TimedRead_due. exact Hdue.
  - rewrite (TimedReadFacts.TimedRead_due _ _ _ Hdue), DecodeFacts.Read_state.
    reflexivity.
Qed.

(** X2: whatever the switches return and whatever the time, [Read] and
    [TimedRead] return one of the steps 1, -1 and 0. *)
Theorem step_range now e :
  (snd (Read e) = 1 \/ snd (Read e) = -1 \/ snd (Read e) = 0) /\
  (snd (TimedRead debounce_time now e) = 1 \/
   snd (TimedRead debounce_time now e) = -1 \/
   snd (TimedRead debounce_time now e) = 0).
Proof.
  split.
  - rewrite DecodeFacts.Read_decode. apply DecodeFacts.decode_range.
  - unfold TimedRead.
    destruct (uint32_t now >=? next_readout_ e).
    + rewrite DecodeFacts.Read_decode. apply DecodeFacts.decode_range.
    + right; right; reflexivity.
Qed.

(** No call moves the deadline out of the range of [uint32_t]. *)
Lemma step_deadline_range c e :
  0 <= next_readout_ e < 4294967296 ->
  0 <= next_readout_ (fst (step debounce_time c e)) < 4294967296.
Proof.
  intros H. destruct c as [| |ms|]; simpl.
  - lia.
  - rewrite DecodeFacts.Read_state. exact H.
  - unfold TimedRead. destruct (uint32_t ms >=? next_readout_ e).
    + rewrite DecodeFacts.Read_state. simpl.
      apply TimedReadFacts.uint32_t_range.
    + exact H.
  - rewrite ButtonFacts.clicked_unfold. exact H.
Qed.

Lemma run_deadline_range cs :
  forall e,
    0 <= next_readout_ e < 4294967296 ->
    0 <= next_readout_ (fst (run debounce_time cs e)) < 4294967296.
Proof.
  induction cs as [|c cs IH]; intros e H; simpl.
  - exact H.
  - pose proof (step_deadline_range c e H) as Hs.
    destruct (step debounce_time c e) as [e1 r].
    specialize (IH e1 Hs).
    destruct (run debounce_time cs e1) as [e2 rs]. exact IH.
Qed.

(** X3: from [Init] on, whatever calls follow ([Init], [Read], [TimedRead]
    at any times, [clicked]), the deadline is a value of [uint32_t]. *)
Theorem deadline_in_range cs e :
  0 <= next_readout_ (fst (run debounce_time (CallInit :: cs) e))
    < 4294967296.
Proof.
  simpl.
  assert (H : 0 <= next_readout_ (Init e) < 4294967296) by (simpl; lia).
  pose proof (run_deadline_range cs (Init e) H) as Hr.
  destruct (run debounce_time cs (Init e)) as [e2 rs]. exact Hr.
Qed.

(** X4: timed reads that come before the deadline, in any number, return 0
    each and leave the state as it is; in particular they do not push the
    deadline back. *)
Theorem early_TimedReads_ignored ts e :
  Forall (fun ms => uint32_t ms < next_readout_ e) ts ->
  run debounce_time (map CallTimedRead ts) e = (e, map (fun _ => 0) ts).
Proof.
  intros H. induction H as [|ms ts Hms Hts IH]; simpl.
  - reflexivity.
  - rewrite (TimedReadFacts.TimedRead_early _ _ _ Hms), IH. reflexivity.
Qed.

(** X5: asking for the button's flag does not disturb the decoding: after
    [clicked], [Read] and [TimedRead] return the increment they would have
    returned without it, and channels A and B and the deadline end in the
    same state. *)
Theorem clicked_keeps_decoding now e :
  snd (Read (fst (clicked e))) = snd (Read e) /\
  snd (TimedRead debounce_time now (fst (clicked e))) =
  snd (TimedRead debounce_time now e) /\
  switch_a (fst (TimedRead debounce_time now (fst (clicked e)))) =
  switch_a (fst (TimedRead debounce_time now e)) /\
  switch_b (fst (TimedRead debounce_time now (fst (clicked e)))) =
  switch_b (fst (TimedRead debounce_time now e)) /\
  next_readout_ (fst (TimedRead debounce_time now (fst (clicked e)))) =
  next_readout_ (fst (TimedRead debounce_time now e)).
Proof.
  rewrite ButtonFacts.clicked_unfold. simpl.
  split; [rewrite !DecodeFacts.Read_decode; reflexivity|].
  unfold TimedRead. simpl.
  destruct (uint32_t now >=? next_readout_ e).
  - rewrite !DecodeFacts.Read_decode, !DecodeFacts.Read_state.
    repeat split.
  - repeat split.
Qed.

End WithSwitches.

(** X4, witness: three calls before the deadline 5. *)
Lemma early_TimedReads_ignored_witness :
  Forall (fun ms => uint32_t ms <
                    next_readout_ (set_next_readout_ 5 Scenario.a_leads))
         [1; 3; 4] /\
  run 2 (map CallTimedRead [1; 3; 4]) (set_next_readout_ 5 Scenario.a_leads) =
  (set_next_readout_ 5 Scenario.a_leads, [0; 0; 0]).
Proof.
  assert (H : Forall (fun ms => uint32_t ms <
                        next_readout_ (set_next_readout_ 5 Scenario.a_leads))
                     [1; 3; 4]).
  { repeat constructor. }
  split; [exact H|].
  exact (early_TimedReads_ignored 2 [1; 3; 4]
           (set_next_readout_ 5 Scenario.a_leads) H).
Defined.

End EncoderCallFacts.

(** ** Sequences of calls on the latch *)

Module TrackerCallFacts.

Import RotaryEncoderTracker TrackerCalls.

Section WithSwitches.

Context {SA SB SC : Type}.
Context {SwitchA : DebouncedSwitch.t SA}.
Context {SwitchB : DebouncedSwitch.t SB}.
Context {SwitchClick : DebouncedSwitch.t SC}.

Implicit Type k : RotaryEncoderTracker.t SA SB SC.

(** X6: once a step and a click are both latched, a poll does nothing at
    all: the latch and the decoder under it, switches included, are left as
    they are by any number of polls. *)
Theorem Read_fully_latched k (n : nat) :
  increment_ k <> 0 -> clicked_ k <> 0 -> Read_times n k = k.
Proof.
  intros Hi Hc. induction n as [|n IH]; simpl.
  - reflexivity.
  - rewrite IH. unfold Read.
    rewrite (TrackerFacts.Read_increment_latched _ Hi).
    apply TrackerFacts.Read_clicked_latched. exact Hc.
Qed.

Lemma step_fields_in_range c k :
  fields_in_range k -> fields_in_range (step c k).
Proof.
  intros [Hi Hc]. destruct c as [| | |e]; simpl.
  - split; assumption.
  - unfold Read. split.
    + rewrite TrackerFacts.Read_clicked_increment_.
      destruct (Z.eq_dec (increment_ k) 0) as [H|H].
      * rewrite (TrackerFacts.Read_increment_armed _ H). simpl.
        rewrite DecodeFacts.Read_decode. apply DecodeFacts.decode_range.
      * rewrite (TrackerFacts.Read_increment_latched _ H). exact Hi.
    + destruct (Z.eq_dec (clicked_ (Read_increment k)) 0) as [H|H].
      * rewrite (TrackerFacts.Read_clicked_armed _ H). simpl.
        rewrite ButtonFacts.clicked_unfold. simpl.
        destruct (snd (DebouncedSwitch.raised
                         (RotaryEncoder.switch_click
                            (encoder (Read_increment k)))));
          [left|right]; reflexivity.
      * rewrite (TrackerFacts.Read_clicked_latched _ H).
        rewrite TrackerFacts.Read_increment_clicked_. exact Hc.
  - split; [right; right|right]; reflexivity.
  - split; assumption.
Qed.

Lemma run_fields_in_range cs :
  forall k, fields_in_range k -> fields_in_range (run cs k).
Proof.
  induction cs as [|c cs IH]; intros k H; simpl.
  - exact H.
  - apply IH. apply step_fields_in_range. exact H.
Qed.

(** X7: a latch whose fields hold a step in -1, 0, 1 and a click in 0, 1
    (as the zero-initialised statics do) keeps them so through any calls
    of [Init], [Read] and [Flush] and any changes of the decoder; the
    accessor [increment] then returns 1, 255 or 0 and [clicked] 1 or 0. *)
Theorem fields_stay_in_range cs k :
  (increment_ k = 1 \/ increment_ k = -1 \/ increment_ k = 0) ->
  (clicked_ k = 1 \/ clicked_ k = 0) ->
  (increment_ (run cs k) = 1 \/ increment_ (run cs k) = -1 \/
   increment_ (run cs k) = 0) /\
  (clicked_ (run cs k) = 1 \/ clicked_ (run cs k) = 0) /\
  (increment (run cs k) = 1 \/ increment (run cs k) = 255 \/
   increment (run cs k) = 0) /\
  (clicked (run cs k) = 1 \/ clicked (run cs k) = 0).
Proof.
  intros Hi Hc.
  destruct (run_fields_in_range cs k (conj Hi Hc)) as [Ri Rc].
  split; [exact Ri|]. split; [exact Rc|]. split; [|exact Rc].
  unfold increment.
  destruct Ri as [R|[R|R]]; rewrite R;
    [left|right; left|right; right]; reflexivity.
Qed.

(** Every call but [Flush] keeps a latched step and a latched click. *)
Lemma step_keeps_latched c k :
  is_flush c = false ->
  (increment_ k <> 0 -> increment_ (step c k) = increment_ k) /\
  (clicked_ k <> 0 -> clicked_ (step c k) = clicked_ k).
Proof.
  intros Hc. destruct c as [| | |e]; simpl; try discriminate.
  - split; reflexivity.
  - split; [apply TrackerFacts.Read_keeps_increment_
           |apply TrackerFacts.Read_keeps_clicked_].
  - split; reflexivity.
Qed.

Lemma run_keeps_latched cs :
  forall k,
    forallb (fun c => negb (is_flush c)) cs = true ->
    (increment_ k <> 0 -> increment_ (run cs k) = increment_ k) /\
    (clicked_ k <> 0 -> clicked_ (run cs k) = clicked_ k).
Proof.
  induction cs as [|c cs IH]; intros k H; simpl.
  - split; reflexivity.
  - simpl in H. apply andb_true_iff in H. destruct H as [Hc Hcs].
    apply negb_true_iff in Hc.
    destruct (step_keeps_latched c k Hc) as [Si Sc].
    destruct (IH (step c k) Hcs) as [Ri Rc].
    split; intros Hk.
    + rewrite Ri; rewrite (Si Hk); [reflexivity|exact Hk].
    + rewrite Rc; rewrite (Sc Hk); [reflexivity|exact Hk].
Qed.

(** X8: the first event wins until [Flush].  When an armed latch is polled
    and the decoder returns a step other than 0, that step is the content
    of the latch after the poll and after any further calls among which
    there is no [Flush]: further polls, changes of the decoder, and [Init]
    as well, which initialises the decoder and leaves the latch alone. *)
Theorem first_step_wins cs k :
  increment_ k = 0 ->
  snd (RotaryEncoder.Read (encoder k)) <> 0 ->
  forallb (fun c => negb (is_flush c)) cs = true ->
  increment_ (run (CallRead :: cs) k) = snd (RotaryEncoder.Read (encoder k)) /\
  increment (run (CallRead :: cs) k) =
  uint8_t (snd (RotaryEncoder.Read (encoder k))).
Proof.
  intros Harmed Hstep Hcs.
  assert (Hpoll : increment_ (Read k) = snd (RotaryEncoder.Read (encoder k))).
  { unfold Read.
    rewrite TrackerFacts.Read_clicked_increment_.
    rewrite (TrackerFacts.Read_increment_armed _ Harmed). reflexivity. }
  assert (Hrun : increment_ (run (CallRead :: cs) k) =
                 snd (RotaryEncoder.Read (encoder k))).
  { simpl. destruct (run_keeps_latched cs (Read k) Hcs) as [Ri _].
    rewrite Ri; rewrite Hpoll; [reflexivity|exact Hstep]. }
  split; [exact Hrun|]. unfold increment. rewrite Hrun. reflexivity.
Qed.

(** The second statement of [Read] leaves the deadline alone, and so does
    the first. *)
Lemma Read_deadline k :
  RotaryEncoder.next_readout_ (encoder (Read k)) =
  RotaryEncoder.next_readout_ (encoder k).
Proof.
  unfold Read.
  destruct (TrackerFacts.Read_clicked_frame (Read_increment k))
    as (_ & _ & _ & Hn).
  rewrite Hn.
  destruct (Z.eq_dec (increment_ k) 0) as [H|H].
  - rewrite (TrackerFacts.Read_increment_armed _ H). simpl.
    rewrite DecodeFacts.Read_state. reflexivity.
  - rewrite (TrackerFacts.Read_increment_latched _ H). reflexivity.
Qed.

(** The first statement of an armed poll runs the decoder's [Read], and no
    number of polls moves the deadline. *)
Theorem polls_bypass_rate_limiter k :
  (increment_ k = 0 ->
   encoder (Read_increment k) = fst (RotaryEncoder.Read (encoder k))) /\
  forall n : nat,
    RotaryEncoder.next_readout_ (encoder (Read_times n k)) =
    RotaryEncoder.next_readout_ (encoder k).
Proof.
  split.
  - intros H. rewrite (TrackerFacts.Read_increment_armed _ H). reflexivity.
  - induction n as [|n IH]; simpl.
    + reflexivity.
    + rewrite Read_deadline. exact IH.
Qed.

(** X9: the latch polls the decoder through [Read], not through
    [TimedRead].  A poll of a latch whose step field is armed samples the
    three switches whatever the deadline is: after [Read], channels A and B
    are in the state their own [Read] gives, the button's switch is in the
    state its own [Read] gives (then asked for its flag when the click
    field is armed), and the step field holds what the decoder's [Read]
    returns.  No number of polls moves the deadline. *)
Theorem armed_poll_samples k :
  (increment_ k = 0 ->
   RotaryEncoder.switch_a (encoder (Read k)) =
   fst (DebouncedSwitch.Read (RotaryEncoder.switch_a (encoder k))) /\
   RotaryEncoder.switch_b (encoder (Read k)) =
   fst (DebouncedSwitch.Read (RotaryEncoder.switch_b (encoder k))) /\
   RotaryEncoder.switch_click (encoder (Read k)) =
   (if clicked_ k =? 0
    then fst (DebouncedSwitch.raised
                (fst (DebouncedSwitch.Read
                        (RotaryEncoder.switch_click (encoder k)))))
    else fst (DebouncedSwitch.Read
                (RotaryEncoder.switch_click (encoder k)))) /\
   increment_ (Read k) = snd (RotaryEncoder.Read (encoder k)) /\
   RotaryEncoder.next_readout_ (encoder (Read k)) =
   RotaryEncoder.next_readout_ (encoder k)) /\
  forall n : nat,
    RotaryEncoder.next_readout_ (encoder (Read_times n k)) =
    RotaryEncoder.next_readout_ (encoder k).
Proof.
  split.
  - intros Harmed. unfold Read.
    rewrite TrackerFacts.Read_clicked_increment_.
    rewrite (TrackerFacts.Read_increment_armed _ Harmed).
    cbn [increment_].
    destruct (Z.eqb_spec (clicked_ k) 0) as [Hc|Hc].
    + rewrite TrackerFacts.Read_clicked_armed by exact Hc.
      cbn [encoder]. rewrite ButtonFacts.clicked_unfold.
      cbn [fst RotaryEncoder.switch_a RotaryEncoder.switch_b
               RotaryEncoder.switch_click RotaryEncoder.next_readout_].
      rewrite DecodeFacts.Read_state.
      repeat split.
    + rewrite TrackerFacts.Read_clicked_latched by exact Hc.
      cbn [encoder]. rewrite DecodeFacts.Read_state.
      repeat split.
  - induction n as [|n IH]; simpl.
    + reflexivity.
    + rewrite Read_deadline. exact IH.
Qed.

End WithSwitches.

(** X6, witness: a latch holding +1 and a click over a decoder on which
    channel B is about to show an edge. *)
Lemma Read_fully_latched_witness :
  Read_times 4 (mk Scenario.b_leads 1 1 : Scenario.Tracker) =
  mk Scenario.b_leads 1 1.
Proof.
  apply (Read_fully_latched (mk Scenario.b_leads 1 1) 4); discriminate.
Defined.

(** X7, witness: from the armed latch over a decoder on which B leads, a
    poll, [Init], a poll, [Flush] and a poll. *)
Lemma fields_stay_in_range_witness :
  increment
    (run [CallRead; CallInit; CallRead; CallFlush; CallRead]
         (Scenario.armed Scenario.b_leads)) = 1 \/
  increment
    (run [CallRead; CallInit; CallRead; CallFlush; CallRead]
         (Scenario.armed Scenario.b_leads)) = 255 \/
  increment
    (run [CallRead; CallInit; CallRead; CallFlush; CallRead]
         (Scenario.armed Scenario.b_leads)) = 0.
Proof.
  apply (fields_stay_in_range
           [CallRead; CallInit; CallRead; CallFlush; CallRead]
           (Scenario.armed Scenario.b_leads)).
  - right; right; reflexivity.
  - right; reflexivity.
Defined.

(** X8, witness: B leads at the first poll; then comes [Init], a decoder
    on which A leads, and two more polls. *)
Lemma first_step_wins_witness :
  increment_
    (run [CallRead; CallInit; Decoder Scenario.a_leads; CallRead; CallRead]
         (Scenario.armed Scenario.b_leads)) = -1.
Proof.
  assert (H : snd (RotaryEncoder.Read
                     (encoder (Scenario.armed Scenario.b_leads))) <> 0)
    by (vm_compute; discriminate).
  exact (proj1 (first_step_wins
                  [CallInit; Decoder Scenario.a_leads; CallRead; CallRead]
                  (Scenario.armed Scenario.b_leads)
                  eq_refl H eq_refl)).
Defined.

(** An armed poll over a decoder whose deadline is the top of the clock's
    range. *)
Lemma polls_bypass_rate_limiter_witness :
  encoder (Read_increment (Scenario.armed Scenario.deadline_at_top)) =
  RotaryEncoder.mk (SpecSwitch.mk 0x80 true []) (SpecSwitch.low [])
                   (SpecSwitch.mk 0x80 true []) 0xFFFFFFFF.
Proof.
  rewrite (proj1 (polls_bypass_rate_limiter
                    (Scenario.armed Scenario.deadline_at_top)) eq_refl).
  reflexivity.
Defined.

(** X9, witness: an armed poll over a decoder whose deadline is the top of
    the clock's range samples channel A, whose history goes to 0x80, and
    latches the step +1. *)
Lemma armed_poll_samples_witness :
  increment_ (Scenario.armed Scenario.deadline_at_top) = 0 /\
  RotaryEncoder.switch_a
    (encoder (Read (Scenario.armed Scenario.deadline_at_top))) =
  SpecSwitch.mk 0x80 true [] /\
  increment_ (Read (Scenario.armed Scenario.deadline_at_top)) = 1.
Proof.
  assert (H : increment_ (Scenario.armed Scenario.deadline_at_top) = 0)
    by reflexivity.
  split; [exact H|].
  destruct (proj1 (armed_poll_samples
                     (Scenario.armed Scenario.deadline_at_top)) H)
    as (Ha & _ & _ & Hi & _).
  split.
  - rewrite Ha. reflexivity.
  - rewrite Hi. reflexivity.
Defined.

End TrackerCallFacts.

(** ** SPI initialisation *)

Module SpiFacts.

Import Avr.

(** The bits of a value converted to [uint8_t]. *)
Lemma uint8_t_bits (x i : Z) :
  Z.testbit (uint8_t x) i = (i <? 8) && Z.testbit x i.
Proof.
  unfold uint8_t. change 256 with (2 ^ 8).
  destruct (Z.ltb_spec i 8) as [Hlt|Hge]; cbn [andb].
  - destruct (Z.lt_ge_cases i 0) as [Hneg|Hpos].
    + rewrite !Z.testbit_neg_r by exact Hneg. reflexivity.
    + apply Z.mod_pow2_bits_low. lia.
  - apply Z.mod_pow2_bits_high. lia.
Qed.

(** [_BV b] has the bit [b] and no other. *)
Lemma BV_bits (b i : Z) : 0 <= i -> Z.testbit (_BV b) i = (i =? b).
Proof.
  intros Hi. unfold _BV. rewrite Z.shiftl_spec by exact Hi.
  destruct (Z.eqb_spec i b) as [->|Hne].
  - rewrite Z.sub_diag. reflexivity.
  - destruct (Z.lt_ge_cases (i - b) 0) as [Hneg|Hpos].
    + apply Z.testbit_neg_r. exact Hneg.
    + apply Z.bits_above_log2; simpl; lia.
Qed.

(** Rewrites the bit of a configuration into comparisons of bit numbers,
    then decides them. *)
Ltac bits :=
  repeat (rewrite ?uint8_t_bits, ?Z.lor_spec, ?BV_bits by lia);
  repeat match goal with
         | |- context [?a =? ?b] => destruct (Z.eqb_spec a b)
         | |- context [?a <? ?b] => destruct (Z.ltb_spec a b)
         end;
  simpl; try reflexivity; try lia; try congruence.

Section MasterBits.

Variables SPE MSTR DORD SPR0 SPR1 : Z.

Hypothesis SPE_range : 0 <= SPE < 8.
Hypothesis MSTR_range : 0 <= MSTR < 8.
Hypothesis DORD_range : 0 <= DORD < 8.
Hypothesis SPR0_range : 0 <= SPR0 < 8.
Hypothesis SPR1_range : 0 <= SPR1 < 8.
Hypothesis bits_distinct :
  SPE <> MSTR /\ SPE <> DORD /\ SPE <> SPR0 /\ SPE <> SPR1 /\
  MSTR <> DORD /\ MSTR <> SPR0 /\ MSTR <> SPR1 /\
  DORD <> SPR0 /\ DORD <> SPR1 /\ SPR0 <> SPR1.

(** The bits of [configuration] before the [switch]. *)
Lemma Init_order_bits order i :
  0 <= i ->
  Z.testbit (SpiMaster.Init_order SPE MSTR DORD order) i =
  ((i =? SPE) || (i =? MSTR) ||
   (match order with LSB_FIRST => i =? DORD | MSB_FIRST => false end)).
Proof.
  intros Hi. unfold SpiMaster.Init_order.
  destruct order; bits.
Qed.

(** Setting one bit of a [uint8_t] value. *)
Lemma set_bit_bits (c b i : Z) :
  0 <= b < 8 -> 0 <= i ->
  Z.testbit (uint8_t (Z.lor (uint8_t c) (_BV b))) i =
  (Z.testbit (uint8_t c) i || (i =? b)).
Proof.
  intros Hb Hi. rewrite !uint8_t_bits, Z.lor_spec, uint8_t_bits, BV_bits by lia.
  destruct (Z.ltb_spec i 8) as [Hlt|Hge]; cbn [andb orb].
  - reflexivity.
  - destruct (Z.eqb_spec i b); [lia|reflexivity].
Qed.

Lemma Init_order_uint8_t order :
  SpiMaster.Init_order SPE MSTR DORD order =
  uint8_t (SpiMaster.Init_order SPE MSTR DORD order).
Proof.
  unfold SpiMaster.Init_order, uint8_t.
  destruct order; rewrite Z.mod_mod by discriminate; reflexivity.
Qed.

(** The value [Init] writes to SPCR, in the three shapes the [switch]
    gives it. *)
Lemma Init_speed_cases speed c :
  (snd (SpiMaster.Init_speed SPR0 SPR1 speed c) = c /\
   speed <> 8 /\ speed <> 16 /\ speed <> 32 /\ speed <> 64 /\ speed <> 128) \/
  (snd (SpiMaster.Init_speed SPR0 SPR1 speed c) =
   uint8_t (Z.lor c (_BV SPR0)) /\ (speed = 8 \/ speed = 16)) \/
  (snd (SpiMaster.Init_speed SPR0 SPR1 speed c) =
   uint8_t (Z.lor c (_BV SPR1)) /\ (speed = 32 \/ speed = 64)) \/
  (snd (SpiMaster.Init_speed SPR0 SPR1 speed c) =
   uint8_t (Z.lor (uint8_t (Z.lor c (_BV SPR0))) (_BV SPR1)) /\ speed = 128).
Proof.
  unfold SpiMaster.Init_speed.
  destruct (Z.eqb_spec speed 2) as [->|N2];
    [left; repeat split; discriminate|].
  destruct (Z.eqb_spec speed 4) as [->|N4];
    [left; repeat split; discriminate|].
  destruct (Z.eqb_spec speed 8) as [->|N8];
    [right; left; split; [reflexivity|left; reflexivity]|].
  destruct (Z.eqb_spec speed 16) as [->|N16];
    [right; left; split; [reflexivity|right; reflexivity]|].
  destruct (Z.eqb_spec speed 32) as [->|N32];
    [right; right; left; split; [reflexivity|left; reflexivity]|].
  destruct (Z.eqb_spec speed 64) as [->|N64];
    [right; right; left; split; [reflexivity|right; reflexivity]|].
  destruct (Z.eqb_spec speed 128) as [->|N128];
    [right; right; right; split; reflexivity|].
  left. repeat split; assumption.
Qed.

(** The bits of the value written to SPCR, speed by speed. *)
Lemma Init_SPCR_bits order speed i :
  0 <= i ->
  Z.testbit (SpiMaster.Init_SPCR SPE MSTR DORD SPR0 SPR1 order speed) i =
  (Z.testbit (SpiMaster.Init_order SPE MSTR DORD order) i ||
   ((i =? SPR0) && ((speed =? 8) || (speed =? 16) || (speed =? 128))) ||
   ((i =? SPR1) && ((speed =? 32) || (speed =? 64) || (speed =? 128)))).
Proof.
  intros Hi. unfold SpiMaster.Init_SPCR.
  destruct (Init_speed_cases speed (SpiMaster.Init_order SPE MSTR DORD order))
    as [(-> & N8 & N16 & N32 & N64 & N128)
       |[(-> & Hs)|[(-> & Hs)|(-> & ->)]]].
  - apply Z.eqb_neq in N8, N16, N32, N64, N128.
    rewrite N8, N16, N32, N64, N128. cbn [orb].
    rewrite !andb_false_r, !orb_false_r. reflexivity.
  - rewrite (Init_order_uint8_t order) at 1.
    rewrite set_bit_bits, <- Init_order_uint8_t by lia.
    destruct Hs as [-> | ->]; cbn; rewrite !andb_false_r, !andb_true_r,
      !orb_false_r; reflexivity.
  - rewrite (Init_order_uint8_t order) at 1.
    rewrite set_bit_bits, <- Init_order_uint8_t by lia.
    destruct Hs as [-> | ->]; cbn; rewrite !andb_false_r, !andb_true_r,
      !orb_false_r; reflexivity.
  - rewrite (Init_order_uint8_t order) at 1.
    rewrite !set_bit_bits, <- Init_order_uint8_t by lia.
    cbn. rewrite !andb_true_r. reflexivity.
Qed.

(** The bit [SPR0] of the value written to SPCR. *)
Lemma Init_SPCR_SPR0 order speed :
  Z.testbit (SpiMaster.Init_SPCR SPE MSTR DORD SPR0 SPR1 order speed) SPR0 =
  ((speed =? 8) || (speed =? 16) || (speed =? 128)).
Proof.
  destruct bits_distinct as (_ & _ & H1 & _ & _ & H2 & _ & H3 & _ & H4).
  rewrite Init_SPCR_bits, Init_order_bits by lia.
  rewrite Z.eqb_refl.
  rewrite (proj2 (Z.eqb_neq SPR0 SPE)), (proj2 (Z.eqb_neq SPR0 MSTR)),
    (proj2 (Z.eqb_neq SPR0 SPR1)) by congruence.
  destruct order;
    rewrite ?(proj2 (Z.eqb_neq SPR0 DORD)) by congruence;
    cbn [orb andb]; rewrite orb_false_r; reflexivity.
Qed.

(** The bit [SPR1] of the value written to SPCR. *)
Lemma Init_SPCR_SPR1 order speed :
  Z.testbit (SpiMaster.Init_SPCR SPE MSTR DORD SPR0 SPR1 order speed) SPR1 =
  ((speed =? 32) || (speed =? 64) || (speed =? 128)).
Proof.
  destruct bits_distinct as (_ & _ & _ & H1 & _ & _ & H2 & _ & H3 & H4).
  rewrite Init_SPCR_bits, Init_order_bits by lia.
  rewrite Z.eqb_refl.
  rewrite (proj2 (Z.eqb_neq SPR1 SPE)), (proj2 (Z.eqb_neq SPR1 MSTR)),
    (proj2 (Z.eqb_neq SPR1 SPR0)) by congruence.
  destruct order;
    rewrite ?(proj2 (Z.eqb_neq SPR1 DORD)) by congruence;
    cbn [orb andb]; reflexivity.
Qed.

(** [Init] calls [DoubleSpeed::set()] for the speeds 2, 8 and 32 only. *)
Lemma Init_double_speed_spec order speed :
  SpiMaster.Init_double_speed SPE MSTR DORD SPR0 SPR1 order speed =
  ((speed =? 2) || (speed =? 8) || (speed =? 32)).
Proof.
  unfold SpiMaster.Init_double_speed, SpiMaster.Init_speed.
  repeat match goal with
         | |- context [speed =? ?n] =>
             destruct (Z.eqb_spec speed n) as [->|?]; [reflexivity|]
         end.
  reflexivity.
Qed.

(** Two runs of [Init] that do the same call [DoubleSpeed::set()] alike
    and write the same value to SPCR. *)
Lemma Init_eq_inv order s1 s2 :
  SpiMaster.Init SPE MSTR DORD SPR0 SPR1 order s1 =
  SpiMaster.Init SPE MSTR DORD SPR0 SPR1 order s2 ->
  SpiMaster.Init_double_speed SPE MSTR DORD SPR0 SPR1 order s1 =
  SpiMaster.Init_double_speed SPE MSTR DORD SPR0 SPR1 order s2 /\
  SpiMaster.Init_SPCR SPE MSTR DORD SPR0 SPR1 order s1 =
  SpiMaster.Init_SPCR SPE MSTR DORD SPR0 SPR1 order s2.
Proof.
  unfold SpiMaster.Init, SpiMaster.Init_double_speed, SpiMaster.Init_SPCR.
  destruct (SpiMaster.Init_speed SPR0 SPR1 s1 _) as [d1 c1].
  destruct (SpiMaster.Init_speed SPR0 SPR1 s2 _) as [d2 c2].
  intros H. apply app_inv_head in H. apply app_inj_tail in H.
  destruct H as [Hd Hc]. injection Hc as Hc. subst. split; reflexivity.
Qed.

(** X10: the seven speeds the [switch] has a case for configure the
    hardware in seven different ways: two of them for which [Init] does the
    same operations and writes the same value to SPCR are equal. *)
Theorem Init_speed_injective order s1 s2 :
  SpiMaster.supported s1 -> SpiMaster.supported s2 ->
  SpiMaster.Init SPE MSTR DORD SPR0 SPR1 order s1 =
  SpiMaster.Init SPE MSTR DORD SPR0 SPR1 order s2 ->
  s1 = s2.
Proof.
  intros H1 H2 H. apply Init_eq_inv in H. destruct H as [Hd Hc].
  pose proof (f_equal (fun c => Z.testbit c SPR0) Hc) as Hb0.
  pose proof (f_equal (fun c => Z.testbit c SPR1) Hc) as Hb1.
  cbv beta in Hb0, Hb1.
  rewrite !Init_SPCR_SPR0 in Hb0. rewrite !Init_SPCR_SPR1 in Hb1.
  rewrite !Init_double_speed_spec in Hd.
  clear Hc. unfold SpiMaster.supported in H1, H2. simpl in H1, H2.
  repeat (destruct H1 as [H1|H1]; [|try contradiction]);
    repeat (destruct H2 as [H2|H2]; [|try contradiction]);
    subst s1 s2; try reflexivity; discriminate.
Qed.

(** The value computed for SPCR has the bits [SPE] and [MSTR] for every
    order and speed, the bit [DORD] exactly for the order [LSB_FIRST], and
    beside these only the bits [SPR0] and [SPR1]. *)
Theorem Init_SPCR_contents order speed :
  Z.testbit (SpiMaster.Init_SPCR SPE MSTR DORD SPR0 SPR1 order speed) SPE =
  true /\
  Z.testbit (SpiMaster.Init_SPCR SPE MSTR DORD SPR0 SPR1 order speed) MSTR =
  true /\
  (Z.testbit (SpiMaster.Init_SPCR SPE MSTR DORD SPR0 SPR1 order speed) DORD =
   true <-> order = LSB_FIRST) /\
  (forall i,
      Z.testbit (SpiMaster.Init_SPCR SPE MSTR DORD SPR0 SPR1 order speed) i =
      true ->
      i = SPE \/ i = MSTR \/ i = DORD \/ i = SPR0 \/ i = SPR1).
Proof.
  destruct bits_distinct as (D1 & D2 & D3 & D4 & D5 & D6 & D7 & D8 & D9 & D10).
  repeat split.
  - rewrite Init_SPCR_bits, Init_order_bits, Z.eqb_refl by lia. reflexivity.
  - rewrite Init_SPCR_bits, Init_order_bits, Z.eqb_refl by lia.
    rewrite orb_true_r. reflexivity.
  - rewrite Init_SPCR_bits, Init_order_bits by lia.
    rewrite (proj2 (Z.eqb_neq DORD SPE)), (proj2 (Z.eqb_neq DORD MSTR)),
      (proj2 (Z.eqb_neq DORD SPR0)), (proj2 (Z.eqb_neq DORD SPR1))
      by congruence.
    destruct order; [discriminate|reflexivity].
  - intros ->.
    rewrite Init_SPCR_bits, Init_order_bits, Z.eqb_refl by lia.
    rewrite orb_true_r. reflexivity.
  - intros i H.
    destruct (Z.lt_ge_cases i 0) as [Hneg|Hpos];
      [rewrite Z.testbit_neg_r in H by exact Hneg; discriminate|].
    rewrite Init_SPCR_bits, Init_order_bits in H by exact Hpos.
    destruct (Z.eqb_spec i SPE); [now left|].
    destruct (Z.eqb_spec i MSTR); [now (right; left)|].
    destruct (Z.eqb_spec i SPR0); [now (right; right; right; left)|].
    destruct (Z.eqb_spec i SPR1); [now (right; right; right; right)|].
    destruct order; cbn [orb andb] in H; [discriminate|].
    rewrite !orb_false_r in H. apply Z.eqb_eq in H.
    right; right; left; exact H.
Qed.

(** The [switch] calls [DoubleSpeed::set()] once or not at all. *)
Lemma Init_speed_events speed c :
  fst (SpiMaster.Init_speed SPR0 SPR1 speed c) = [] \/
  fst (SpiMaster.Init_speed SPR0 SPR1 speed c) = [DoubleSpeed_set].
Proof.
  unfold SpiMaster.Init_speed.
  repeat match goal with
         | |- context [speed =? ?n] => destruct (speed =? n)
         end; simpl; auto.
Qed.

(** X12: [SpiMaster::Init] writes SPCR once, as its last operation, and
    the value it writes has the bits [SPE] and [MSTR] for every order and
    speed, the bit [DORD] exactly for the order [LSB_FIRST], and beside
    these only the bits [SPR0] and [SPR1]. *)
Theorem Init_writes_SPCR order speed :
  exists (before : list event) (v : Z),
    SpiMaster.Init SPE MSTR DORD SPR0 SPR1 order speed =
    before ++ [SPCR_write v] /\
    (forall w, ~ In (SPCR_write w) before) /\
    Z.testbit v SPE = true /\
    Z.testbit v MSTR = true /\
    (Z.testbit v DORD = true <-> order = LSB_FIRST) /\
    (forall i,
        Z.testbit v i = true ->
        i = SPE \/ i = MSTR \/ i = DORD \/ i = SPR0 \/ i = SPR1).
Proof.
  pose proof (Init_SPCR_contents order speed) as Hbits.
  pose proof (Init_speed_events speed
                (SpiMaster.Init_order SPE MSTR DORD order)) as Hev.
  unfold SpiMaster.Init_SPCR in Hbits. unfold SpiMaster.Init.
  destruct (SpiMaster.Init_speed SPR0 SPR1 speed
              (SpiMaster.Init_order SPE MSTR DORD order)) as [d c].
  cbn [fst snd] in Hbits, Hev.
  eexists. exists c. split; [apply app_assoc|].
  split; [|exact Hbits].
  intros w Hin. apply in_app_or in Hin. destruct Hin as [Hin|Hin].
  - simpl in Hin.
    repeat (destruct Hin as [Hin|Hin]; [discriminate Hin|]). exact Hin.
  - destruct Hev as [-> | ->]; simpl in Hin.
    + exact Hin.
    + destruct Hin as [Hin|Hin]; [discriminate Hin|exact Hin].
Qed.

End MasterBits.

(** X11: the [switch] has no default case: for every speed it has no case
    for, [Init] does exactly what it does for the speed 4. *)
Theorem Init_unsupported_speed (SPE MSTR DORD SPR0 SPR1 : Z) order speed :
  ~ SpiMaster.supported speed ->
  SpiMaster.Init SPE MSTR DORD SPR0 SPR1 order speed =
  SpiMaster.Init SPE MSTR DORD SPR0 SPR1 order 4.
Proof.
  intros H. unfold SpiMaster.supported in H. simpl in H.
  unfold SpiMaster.Init, SpiMaster.Init_speed.
  repeat match goal with
         | |- context [speed =? ?n] =>
             destruct (Z.eqb_spec speed n);
             [exfalso; subst speed; apply H; auto 10|]
         end.
  reflexivity.
Qed.

Section SlaveBits.

Variables SPE DORD SPIE : Z.

Hypothesis SPE_range : 0 <= SPE < 8.
Hypothesis DORD_range : 0 <= DORD < 8.
Hypothesis SPIE_range : 0 <= SPIE < 8.

(** The byte computed for the slave's SPCR has the bit [SPE], the bit
    [DORD] for the order [LSB_FIRST], the bit [SPIE] when interrupts are
    enabled, and no other bit. *)
Theorem SpiSlave_configuration_bits order enable_interrupt i :
  Z.testbit (SpiSlave.Init_configuration SPE DORD SPIE order enable_interrupt)
            i = true <->
  i = SPE \/ (order = LSB_FIRST /\ i = DORD) \/
  (enable_interrupt = true /\ i = SPIE).
Proof.
  destruct (Z.lt_ge_cases i 0) as [Hneg|Hpos].
  - rewrite Z.testbit_neg_r by exact Hneg.
    split; [discriminate|]. intros [H|[[_ H]|[_ H]]]; lia.
  - unfold SpiSlave.Init_configuration.
    destruct order, enable_interrupt;
      repeat (rewrite ?uint8_t_bits, ?Z.lor_spec, ?BV_bits by lia);
      destruct (Z.ltb_spec i 8);
      destruct (Z.eqb_spec i SPE);
      try destruct (Z.eqb_spec i DORD);
      try destruct (Z.eqb_spec i SPIE);
      cbn [andb orb]; split;
      try discriminate; try reflexivity; try lia;
      try (intros _; tauto);
      try (intros [H'|[[H1 H2]|[H1 H2]]];
           try discriminate; try contradiction; try lia).
Qed.

(** X13: [SpiSlave::Init] writes SPCR once, as its last operation, and
    the byte it writes has the bit [SPE], the bit [DORD] for the order
    [LSB_FIRST], the bit [SPIE] when interrupts are enabled, and no other
    bit: the slave never sets a master bit. *)
Theorem SpiSlave_Init_writes_SPCR order enable_interrupt :
  exists (before : list event) (v : Z),
    SpiSlave.Init SPE DORD SPIE order enable_interrupt =
    before ++ [SPCR_write v] /\
    (forall w, ~ In (SPCR_write w) before) /\
    forall i,
      Z.testbit v i = true <->
      i = SPE \/ (order = LSB_FIRST /\ i = DORD) \/
      (enable_interrupt = true /\ i = SPIE).
Proof.
  exists [set_mode SpiSCK DIGITAL_INPUT;
          set_mode SpiMOSI DIGITAL_INPUT;
          set_mode SpiMISO DIGITAL_OUTPUT;
          set_mode SpiSS DIGITAL_INPUT;
          set_mode SlaveSelect DIGITAL_INPUT].
  exists (SpiSlave.Init_configuration SPE DORD SPIE order enable_interrupt).
  split; [reflexivity|]. split.
  - intros w Hin. simpl in Hin.
    repeat (destruct Hin as [Hin|Hin]; [discriminate Hin|]). exact Hin.
  - intros i. apply SpiSlave_configuration_bits.
Qed.

End SlaveBits.

(** X14: the loop of [UartSpiMaster::Wait] never runs its body.  When the
    bit number [UDRE0] is not 0, the condition [!UCSR0A & _BV(UDRE0)] is 0
    for every value of UCSR0A, so [Wait] returns after reading the register
    once, whether the data register is empty or not. *)
Theorem Wait_never_waits (UDRE0 ucsr0a : Z) (rest : list Z) :
  1 <= UDRE0 ->
  UartSpiMaster.Wait_condition UDRE0 ucsr0a = 0 /\
  UartSpiMaster.Wait UDRE0 (ucsr0a :: rest) = Some rest.
Proof.
  intros H.
  assert (Hc : UartSpiMaster.Wait_condition UDRE0 ucsr0a = 0).
  { unfold UartSpiMaster.Wait_condition, _BV.
    destruct (ucsr0a =? 0).
    - rewrite Z.shiftl_1_l, Z.land_comm.
      change 1 with (Z.ones 1). rewrite Z.land_ones by lia.
      replace UDRE0 with (Z.succ (UDRE0 - 1)) by lia.
      rewrite Z.pow_succ_r by lia.
      rewrite Z.mul_comm. apply Z.mod_mul. discriminate.
    - apply Z.land_0_l. }
  split; [exact Hc|]. simpl. rewrite Hc. reflexivity.
Qed.

(** The value computed for UBRR0.  For a speed from 2 to 255 it is
    [speed / 2 - 1], so an even speed is [2 * (UBRR0 + 1)] and an odd speed
    gives the value of the even speed below it; for the speeds 0 and 1 the
    subtraction gives -1 and the register takes all ones. *)
Theorem Init_UBRR0_value (UBRR0_width speed : Z) :
  7 <= UBRR0_width ->
  (2 <= speed <= 255 ->
   UartSpiMaster.Init_UBRR0 UBRR0_width speed = speed / 2 - 1 /\
   (Z.even speed = true ->
    2 * (UartSpiMaster.Init_UBRR0 UBRR0_width speed + 1) = speed) /\
   (Z.odd speed = true ->
    UartSpiMaster.Init_UBRR0 UBRR0_width speed =
    UartSpiMaster.Init_UBRR0 UBRR0_width (speed - 1))) /\
  (0 <= speed < 2 ->
   UartSpiMaster.Init_UBRR0 UBRR0_width speed = 2 ^ UBRR0_width - 1).
Proof.
  intros Hw.
  assert (Hpow : 2 ^ 7 <= 2 ^ UBRR0_width)
    by (apply Z.pow_le_mono_r; lia).
  change (2 ^ 7) with 128 in Hpow.
  unfold UartSpiMaster.Init_UBRR0. split.
  - intros Hs.
    assert (Hq : 1 <= speed / 2 <= 127).
    { split.
      - apply Z.div_le_lower_bound; lia.
      - apply Z.lt_succ_r. apply Z.div_lt_upper_bound; lia. }
    rewrite Z.mod_small by lia.
    split; [reflexivity|]. split.
    + intros He. rewrite Z.even_spec in He. destruct He as [q ->].
      rewrite (Z.mul_comm 2 q), Z.div_mul by discriminate. lia.
    + intros Ho. rewrite Z.odd_spec in Ho. destruct Ho as [q ->].
      replace (2 * q + 1 - 1) with (q * 2) by lia.
      rewrite Z.div_mul by discriminate.
      replace (2 * q + 1) with (1 + q * 2) by lia.
      rewrite Z.div_add by discriminate.
      change (1 / 2) with 0.
      rewrite !Z.mod_small; lia.
  - intros Hs.
    replace (speed / 2) with 0
      by (symmetry; apply Z.div_small; lia).
    replace (0 - 1) with (2 ^ UBRR0_width - 1 + (-1) * 2 ^ UBRR0_width)
      by lia.
    rewrite Z.mod_add by lia. apply Z.mod_small. lia.
Qed.

(** X15: [UartSpiMaster::Init] writes UBRR0 last, and the only write of
    UBRR0 before that one writes 0.  For a speed from 2 to 255 the value
    left in UBRR0 is [speed / 2 - 1], so an even speed is
    [2 * (UBRR0 + 1)], and for an odd speed [Init] does exactly what it does
    for the even speed below it; for the speeds 0 and 1 the subtraction
    gives -1 and the register takes all ones. *)
Theorem UartSpiMaster_Init_UBRR0
        (UMSEL01 UMSEL00 RXEN0 TXEN0 UBRR0_width speed : Z) :
  7 <= UBRR0_width ->
  exists (before : list event) (v : Z),
    UartSpiMaster.Init UMSEL01 UMSEL00 RXEN0 TXEN0 UBRR0_width speed =
    before ++ [UBRR0_write v] /\
    (forall w, In (UBRR0_write w) before -> w = 0) /\
    (2 <= speed <= 255 ->
     v = speed / 2 - 1 /\
     (Z.even speed = true -> 2 * (v + 1) = speed) /\
     (Z.odd speed = true ->
      UartSpiMaster.Init UMSEL01 UMSEL00 RXEN0 TXEN0 UBRR0_width speed =
      UartSpiMaster.Init UMSEL01 UMSEL00 RXEN0 TXEN0 UBRR0_width
                         (speed - 1))) /\
    (0 <= speed < 2 -> v = 2 ^ UBRR0_width - 1).
Proof.
  intros Hw.
  destruct (Init_UBRR0_value UBRR0_width speed Hw) as [Hin Hlow].
  exists [set_mode SlaveSelect DIGITAL_OUTPUT;
          High SlaveSelect;
          UBRR0_write 0;
          set_mode UartSpiXCK DIGITAL_OUTPUT;
          set_mode UartSpiTX DIGITAL_OUTPUT;
          set_mode UartSpiRX DIGITAL_INPUT;
          UCSR0C_write (Z.lor (_BV UMSEL01) (_BV UMSEL00));
          UCSR0B_write (Z.lor (_BV RXEN0) (_BV TXEN0))].
  exists (UartSpiMaster.Init_UBRR0 UBRR0_width speed).
  split; [reflexivity|]. split; [|split].
  - intros w H. simpl in H.
    repeat (destruct H as [H|H];
            [try discriminate H; injection H as H; symmetry; exact H|]).
    contradiction.
  - intros Hs. destruct (Hin Hs) as (Hv & He & Ho).
    split; [exact Hv|]. split; [exact He|].
    intros Hodd. unfold UartSpiMaster.Init. rewrite (Ho Hodd). reflexivity.
  - exact Hlow.
Qed.

(** X10, witness: the bit numbers of the ATmega's SPCR; the speeds 8 and
    8. *)
Lemma Init_speed_injective_witness :
  SpiMaster.supported 8 /\
  SpiMaster.Init 6 4 5 0 1 MSB_FIRST 8 = SpiMaster.Init 6 4 5 0 1 MSB_FIRST 8 /\
  8 = 8.
Proof.
  assert (Hs : SpiMaster.supported 8) by (vm_compute; auto 10).
  assert (Hi : SpiMaster.Init 6 4 5 0 1 MSB_FIRST 8 =
               SpiMaster.Init 6 4 5 0 1 MSB_FIRST 8) by reflexivity.
  split; [exact Hs|]. split; [exact Hi|].
  apply (Init_speed_injective 6 4 5 0 1) with (order := MSB_FIRST);
    try lia; assumption.
Defined.

(** X11, witness: the speed 3. *)
Lemma Init_unsupported_speed_witness :
  SpiMaster.Init 6 4 5 0 1 LSB_FIRST 3 = SpiMaster.Init 6 4 5 0 1 LSB_FIRST 4.
Proof.
  apply Init_unsupported_speed.
  unfold SpiMaster.supported. simpl.
  intros [H|[H|[H|[H|[H|[H|[H|H]]]]]]]; try discriminate H; exact H.
Defined.

(** With the bit numbers of the ATmega's SPCR, order [LSB_FIRST] and speed
    128, the byte has the bit 5. *)
Lemma Init_SPCR_contents_witness :
  Z.testbit (SpiMaster.Init_SPCR 6 4 5 0 1 LSB_FIRST 128) 5 = true.
Proof.
  apply (proj2 (proj1 (proj2 (proj2
           (Init_SPCR_contents 6 4 5 0 1
              ltac:(lia) ltac:(lia) ltac:(lia) ltac:(lia) ltac:(lia)
              ltac:(repeat split; discriminate) LSB_FIRST 128))))).
  reflexivity.
Defined.

(** The byte of a slave with interrupts enabled has the bit 7. *)
Lemma SpiSlave_configuration_bits_witness :
  Z.testbit (SpiSlave.Init_configuration 6 5 7 MSB_FIRST true) 7 = true.
Proof.
  apply (proj2 (SpiSlave_configuration_bits 6 5 7
                  ltac:(lia) ltac:(lia) ltac:(lia) MSB_FIRST true 7)).
  right; right; split; reflexivity.
Defined.

(** X14, witness: the bit number 5 of the ATmega's UDRE0, and a register
    in which that bit is clear. *)
Lemma Wait_never_waits_witness :
  1 <= 5 /\ UartSpiMaster.Wait 5 [0; 0; 32] = Some [0; 32].
Proof.
  assert (H : 1 <= 5) by lia.
  split; [exact H|].
  exact (proj2 (Wait_never_waits 5 0 [0; 32] H)).
Defined.

(** The values for a 16-bit UBRR0 at the speeds 2 and 1. *)
Lemma Init_UBRR0_value_witness :
  UartSpiMaster.Init_UBRR0 16 2 = 2 / 2 - 1 /\
  UartSpiMaster.Init_UBRR0 16 1 = 2 ^ 16 - 1.
Proof.
  split.
  - apply (proj1 (proj1 (Init_UBRR0_value 16 2 ltac:(lia)) ltac:(lia))).
  - apply (proj2 (Init_UBRR0_value 16 1 ltac:(lia)) ltac:(lia)).
Defined.

(** X12, witness: the bit numbers of the ATmega's SPCR, order [LSB_FIRST]
    and speed 128. *)
Lemma Init_writes_SPCR_witness :
  exists (before : list event) (v : Z),
    SpiMaster.Init 6 4 5 0 1 LSB_FIRST 128 = before ++ [SPCR_write v] /\
    (forall w, ~ In (SPCR_write w) before) /\
    Z.testbit v 6 = true /\
    Z.testbit v 4 = true /\
    (Z.testbit v 5 = true <-> LSB_FIRST = LSB_FIRST) /\
    (forall i,
        Z.testbit v i = true -> i = 6 \/ i = 4 \/ i = 5 \/ i = 0 \/ i = 1).
Proof.
  apply (Init_writes_SPCR 6 4 5 0 1); lia.
Defined.

(** X13, witness: the bit numbers of the ATmega's SPCR, a slave with
    interrupts enabled. *)
Lemma SpiSlave_Init_writes_SPCR_witness :
  exists (before : list event) (v : Z),
    SpiSlave.Init 6 5 7 MSB_FIRST true = before ++ [SPCR_write v] /\
    (forall w, ~ In (SPCR_write w) before) /\
    forall i,
      Z.testbit v i = true <->
      i = 6 \/ (MSB_FIRST = LSB_FIRST /\ i = 5) \/ (true = true /\ i = 7).
Proof.
  apply (SpiSlave_Init_writes_SPCR 6 5 7); lia.
Defined.

(** X15, witness: the bit numbers of the ATmega's UCSR0C and UCSR0B, a
    16-bit UBRR0: at the speed 3 [Init] does what it does at the speed 2,
    and at the speed 2 it leaves 0 in UBRR0. *)
Lemma UartSpiMaster_Init_UBRR0_witness :
  7 <= 16 /\
  UartSpiMaster.Init 7 6 4 3 16 3 = UartSpiMaster.Init 7 6 4 3 16 (3 - 1) /\
  exists before : list event,
    UartSpiMaster.Init 7 6 4 3 16 2 = before ++ [UBRR0_write 0].
Proof.
  assert (H : 7 <= 16) by lia.
  split; [exact H|]. split.
  - destruct (UartSpiMaster_Init_UBRR0 7 6 4 3 16 3 H)
      as (before & v & _ & _ & Hin & _).
    apply (proj2 (proj2 (Hin ltac:(lia)))). reflexivity.
  - destruct (UartSpiMaster_Init_UBRR0 7 6 4 3 16 2 H)
      as (before & v & Hinit & _ & Hin & _).
    exists before. rewrite Hinit.
    rewrite (proj1 (Hin ltac:(lia))). reflexivity.
Defined.

End SpiFacts.
